(** * guardbot (cn.py): a shallow embedding of the moderation bot

    The bot reacts to Discord gateway events.  Its handlers are embedded as
    computations over
    - the three module-level dictionaries ([invite_events],
      [webhook_attempts], [last_audit_lookup]),
    - an abstract platform (the discord.py calls the handlers await, the
      member cache and the wall clock), and
    - a ghost trace of the platform calls issued so far.

    Timestamps are [datetime] values, which have microsecond resolution; they
    are integers counting microseconds.  [timedelta.total_seconds()] is the
    correctly rounded quotient of that integer by 10^6, so comparing it with a
    whole number of seconds is the comparison of the microsecond count with
    that number times 10^6.

    Logging calls have no effect on the state or on the platform and are left
    out. *)

From Stdlib Require Import ZArith List Bool String Ascii Lia.
From stdpp Require Import base option list sorting gmap pretty.
Import ListNotations.
Local Open Scope string_scope.
Local Open Scope list_scope.
Local Open Scope Z_scope.

(** ** Configuration constants *)

Definition WHITELIST_IDS : gset Z :=
  {[ 662596869221908480; 843180408152784936;
     1271186898408308789; 1197862712408014909;
     557628352828014614; 651095740390834176;
     235148962103951360 ]}.

Definition INVITE_WINDOW_SECONDS : Z := 15.
Definition INVITE_MAX_IN_WINDOW : nat := 5.
Definition WEBHOOK_MAX_ATTEMPTS : Z := 3.

(** One second, and [timedelta(hours=1)], in microseconds. *)
Definition second : Z := 1000000.
Definition TIMEOUT_DURATION : Z := 3600 * second.

(** [(a - b).total_seconds() > n] and [(a - b).total_seconds() < n]. *)
Definition seconds_gt (a b n : Z) : bool := n * second <? a - b.
Definition seconds_lt (a b n : Z) : bool := a - b <? n * second.

Definition is_whitelisted (user_id : Z) : bool :=
  bool_decide (user_id ∈ WHITELIST_IDS).

(** ** INVITE_REGEX

    A [str] is a sequence of code points.  The pattern is compiled with
    [re.IGNORECASE]: a cased literal [c] accepts every code point whose simple
    lower-case mapping is [c] or one of the extra equivalents the [re] module
    pairs with [c] (dotless i for [i], long s for [s]). *)

Module Regex.

Inductive re : Type :=
| Eps                                (* the empty pattern *)
| Chr (c : Z)                        (* one literal code point *)
| PlusSet (ranges : list (Z * Z))    (* [...]+ *)
| Cat (a b : re)
| Alt (a b : re)
| Opt (a : re).

(** Simple lower-casing, exact on every code point that is mapped to an
    ASCII letter (A-Z, U+0130 and the Kelvin sign U+212A); nothing else can
    be told apart by an ASCII pattern. *)
Definition tolower (x : Z) : Z :=
  if (65 <=? x) && (x <=? 90) then x + 32
  else if x =? 304 then 105
  else if x =? 8490 then 107
  else x.

(** The case-insensitive equivalents listed for a lower-case code point. *)
Definition fixes (c : Z) : list Z :=
  if c =? 105 then [305] else if c =? 115 then [383] else [].

Definition lit_ok (c x : Z) : bool :=
  existsb (Z.eqb (tolower x)) (tolower c :: fixes (tolower c)).

Definition range_ok (x : Z) (r : Z * Z) : bool :=
  existsb (fun c => lit_ok c x)
          (map (fun k => fst r + Z.of_nat k)
               (seq 0 (Z.to_nat (snd r - fst r + 1)))).

Definition set_ok (ranges : list (Z * Z)) (x : Z) : bool :=
  existsb (range_ok x) ranges.

(** Backtracking matcher with a continuation for the rest of the input. *)
Fixpoint rmatch (r : re) (k : list Z -> bool) (s : list Z) : bool :=
  match r with
  | Eps => k s
  | Chr c => match s with
             | x :: s' => lit_ok c x && k s'
             | [] => false
             end
  | PlusSet rs =>
      (fix loop (s : list Z) : bool :=
         match s with
         | x :: s' => set_ok rs x && (loop s' || k s')
         | [] => false
         end) s
  | Cat a b => rmatch a (rmatch b k) s
  | Alt a b => rmatch a k s || rmatch b k s
  | Opt a => rmatch a k s || k s
  end.

(** [pattern.search(s)]: a match starting at some position. *)
Fixpoint search (r : re) (s : list Z) : bool :=
  rmatch r (fun _ => true) s
  || match s with
     | [] => false
     | _ :: s' => search r s'
     end.

Definition code_points (s : string) : list Z :=
  map (fun a => Z.of_N (N_of_ascii a)) (list_ascii_of_string s).

(** A literal run of characters. *)
Definition Str (s : string) : re :=
  match code_points s with
  | [] => Eps
  | c :: cs => fold_left (fun r x => Cat r (Chr x)) cs (Chr c)
  end.

End Regex.

(** [(?:https?://)?(?:www\.)?(?:discord\.gg|discord\.com/invite)/[A-Za-z0-9\-]+] *)
Definition INVITE_REGEX : Regex.re :=
  let Cat := Regex.Cat in
  let Str := Regex.Str in
  Cat (Regex.Opt (Cat (Str "http") (Cat (Regex.Opt (Str "s")) (Str "://"))))
 (Cat (Regex.Opt (Str "www."))
 (Cat (Regex.Alt (Str "discord.gg") (Str "discord.com/invite"))
 (Cat (Str "/")
      (Regex.PlusSet [(65, 90); (97, 122); (48, 57); (45, 45)])))).

(** ** The invite window: [deque(maxlen=50)], oldest entry first *)

Definition DEQUE_MAXLEN : nat := 50.

(** [dq.append(x)] on a bounded deque: a full deque drops its oldest entry. *)
Definition deque_append (dq : list Z) (x : Z) : list Z :=
  if (DEQUE_MAXLEN <=? length dq)%nat then tl dq ++ [x] else dq ++ [x].

(** [while dq and (now - dq[0]).total_seconds() > INVITE_WINDOW_SECONDS:
       dq.popleft()] *)
Fixpoint purge (now : Z) (dq : list Z) : list Z :=
  match dq with
  | [] => []
  | t :: rest =>
      if seconds_gt now t INVITE_WINDOW_SECONDS then purge now rest else dq
  end.

(** Lines 161-165 of [on_message]: append, then clean the window. *)
Definition record_post (dq : list Z) (now : Z) : list Z :=
  purge now (deque_append dq now).

(** Line 167: [len(dq) >= INVITE_MAX_IN_WINDOW]. *)
Definition is_over_threshold (dq : list Z) : bool :=
  (INVITE_MAX_IN_WINDOW <=? length dq)%nat.


(** ** Platform objects (the attributes the handlers read) *)

Record Guild := { guild_id : Z }.
Record User := { user_id : Z; user_bot : bool }.
Record Member := { member_id : Z; member_bot : bool; member_guild : Guild }.
Record Channel := { channel_id : Z; channel_guild : Guild }.
Record Role := { role_id : Z; role_guild : Guild }.
Record Webhook := { webhook_id : Z }.

Record Message := {
  message_id : Z;
  message_author : User;
  message_guild : option Guild;       (* [None] outside a guild *)
  message_content : list Z            (* code points *)
}.

Module AuditLogAction.
Inductive t : Type :=
| bot_add | channel_delete | role_delete | ban | kick | webhook_create.

Definition to_nat (a : t) : nat :=
  match a with
  | bot_add => 0 | channel_delete => 1 | role_delete => 2
  | ban => 3 | kick => 4 | webhook_create => 5
  end%nat.

Definition of_nat (n : nat) : option t :=
  match n with
  | 0 => Some bot_add | 1 => Some channel_delete | 2 => Some role_delete
  | 3 => Some ban | 4 => Some kick | 5 => Some webhook_create
  | _ => None
  end%nat.
End AuditLogAction.

#[global] Instance AuditLogAction_eq_dec : EqDecision AuditLogAction.t.
Proof. solve_decision. Defined.

#[global] Instance AuditLogAction_countable : Countable AuditLogAction.t.
Proof.
  apply (inj_countable AuditLogAction.to_nat AuditLogAction.of_nat).
  intros []; reflexivity.
Defined.

(** The target of an audit entry; [getattr(target, "id", None)] reads it. *)
Record Target := { target_id : option Z }.

Record AuditLogEntry := {
  entry_created_at : option Z;
  entry_user : option User;
  entry_target : option Target
}.

Definition getattr_id (t : option Target) : option Z :=
  match t with
  | Some o => target_id o
  | None => None
  end.

(** ** Exceptions

    [Forbidden] and [NotFound] are subclasses of [discord.HTTPException];
    the constructor [HTTPException] stands for any other instance of that
    class, [OtherError] for an exception outside that hierarchy. *)

Inductive exn : Type := Forbidden | NotFound | HTTPException | OtherError.

Definition is_HTTPException (x : exn) : bool :=
  match x with
  | Forbidden | NotFound | HTTPException => true
  | OtherError => false
  end.

Inductive outcome (A : Type) : Type :=
| Done (a : A)
| Raised (x : exn).
Arguments Done {A} a.
Arguments Raised {A} x.

(** A failure a handler is written to absorb. *)
Definition absorbed {A} (r : outcome A) : Prop :=
  match r with
  | Done _ => True
  | Raised x => is_HTTPException x = true
  end.

(** ** The platform

    [E] is everything outside the process: the gateway, the member cache that
    discord.py keeps up to date, the audit log, the wall clock.  A synchronous
    read observes it; an awaited call returns or raises and leaves it in a new
    state, which also accounts for whatever other tasks did in the meantime.
    Time spent in synchronous code is not modelled. *)

Class Platform (E : Type) := {
  utcnow : E -> Z;
  get_member : E -> Guild -> Z -> option Member;
  text_channels : E -> Guild -> list Channel;
  sleep : Z -> E -> E;
  message_delete : Message -> E -> outcome unit * E;
  member_edit : Member -> Z -> string -> E -> outcome unit * E;
  guild_kick : Guild -> Member -> string -> E -> outcome unit * E;
  audit_logs : Guild -> nat -> AuditLogAction.t -> E
               -> outcome (list AuditLogEntry) * E;
  channel_webhooks : Channel -> E -> outcome (list Webhook) * E;
  webhook_delete : Webhook -> string -> E -> outcome unit * E
}.

(** The awaited calls, as they appear in the trace. *)
Inductive call : Type :=
| Sleep (seconds : Z)
| Delete (m : Message)
| Timeout (m : Member) (until : Z) (reason : string)
| Kick (g : Guild) (m : Member) (reason : string)
| AuditLogs (g : Guild) (limit : nat) (action : AuditLogAction.t)
| Webhooks (ch : Channel)
| WebhookDelete (w : Webhook) (reason : string).

(** ** Module state *)

(** The keys of [last_audit_lookup] are [(guild.id, f"{action}:{target_id}")];
    the formatted string determines the action and the target and is
    determined by them, so the pair stands for it. *)
Abbreviation audit_key := (Z * (AuditLogAction.t * option Z))%type.

Record State := {
  invite_events : gmap Z (list Z);
  webhook_attempts : gmap Z Z;
  last_audit_lookup : gmap audit_key Z
}.

Definition initial_state : State :=
  {| invite_events := ∅; webhook_attempts := ∅; last_audit_lookup := ∅ |}.

Definition set_invite_events (f : gmap Z (list Z) -> gmap Z (list Z)) (s : State) :=
  {| invite_events := f (invite_events s);
     webhook_attempts := webhook_attempts s;
     last_audit_lookup := last_audit_lookup s |}.

Definition set_webhook_attempts (f : gmap Z Z -> gmap Z Z) (s : State) :=
  {| invite_events := invite_events s;
     webhook_attempts := f (webhook_attempts s);
     last_audit_lookup := last_audit_lookup s |}.

Definition set_last_audit_lookup (f : gmap audit_key Z -> gmap audit_key Z) (s : State) :=
  {| invite_events := invite_events s;
     webhook_attempts := webhook_attempts s;
     last_audit_lookup := f (last_audit_lookup s) |}.

(** ** Coroutines *)

Section Bot.
Context {E : Type} {P : Platform E}.

(** A configuration: the module state, the platform, and the calls issued
    so far, each with the platform state it was issued in. *)
Record config := {
  bot : State;
  env : E;
  trace : list (E * call)
}.

(** A coroutine maps a configuration to a result or an exception, and the
    configuration it leaves behind. *)
Definition M (A : Type) : Type := config -> outcome A * config.

Definition ret {A} (a : A) : M A := fun c => (Done a, c).

Definition throw {A} (x : exn) : M A := fun c => (Raised x, c).

Definition bind {A B} (m : M A) (k : A -> M B) : M B :=
  fun c =>
    match m c with
    | (Done a, c') => k a c'
    | (Raised x, c') => (Raised x, c')
    end.

(** [try: m  except ...: h] *)
Definition catch {A} (m : M A) (h : exn -> M A) : M A :=
  fun c =>
    match m c with
    | (Done a, c') => (Done a, c')
    | (Raised x, c') => h x c'
    end.

(** A synchronous read of the platform. *)
Definition ask {A} (f : E -> A) : M A := fun c => (Done (f (env c)), c).

Definition gets {A} (f : State -> A) : M A := fun c => (Done (f (bot c)), c).

Definition modify (f : State -> State) : M unit :=
  fun c => (Done tt, {| bot := f (bot c); env := env c; trace := trace c |}).

(** The configuration after one more awaited call, which left the
    platform in state [e']. *)
Definition issued (c : config) (what : call) (e' : E) : config :=
  {| bot := bot c; env := e'; trace := trace c ++ [(env c, what)] |}.

(** [await] of a platform call. *)
Definition await {A} (what : call) (run : E -> outcome A * E) : M A :=
  fun c =>
    let (r, e') := run (env c) in
    (r, issued c what e').

Definition asyncio_sleep (seconds : Z) : M unit :=
  await (Sleep seconds) (fun e => (Done tt, sleep seconds e)).

End Bot.

Arguments config E : clear implicits.
Arguments M E A : clear implicits.

Notation "x <- m ;; k" := (bind m (fun x => k))
  (at level 100, m at next level, right associativity).
Notation "m ;;; k" := (bind m (fun _ => k))
  (at level 100, right associativity).

(** ** Utilities and the message handler *)

Section Handlers.
Context {E : Type} {P : Platform E}.

Definition safe_kick (guild : Guild) (member : option Member) (reason : string)
  : M E unit :=
  catch
    (match member with
     | Some m =>
         present <- ask (fun e => get_member e guild (member_id m)) ;;
         match present with
         | Some _ => await (Kick guild m reason) (guild_kick guild m reason)
         | None => ret tt
         end
     | None => ret tt
     end)
    (fun x =>
       match x with
       | Forbidden => ret tt
       | NotFound | HTTPException => ret tt
       | OtherError => throw x
       end).

Definition try_timeout (member : Member) (duration : Z) (reason : string)
  : M E bool :=
  catch
    (now <- ask utcnow ;;
     let until := now + duration in
     await (Timeout member until reason) (member_edit member until reason) ;;;
     ret true)
    (fun x =>
       match x with
       | Forbidden => ret false
       | NotFound | HTTPException => ret false
       | OtherError => throw x
       end).

(** [entry.created_at and (now - entry.created_at).total_seconds() > n] *)
Definition too_old (now : Z) (n : Z) (entry : AuditLogEntry) : bool :=
  match entry_created_at entry with
  | Some t => seconds_gt now t n
  | None => false
  end.

(** One turn of the loop of [find_audit_actor]: [true] when the entry is
    passed over by a [continue]. *)
Definition entry_skipped (now : Z) (target_id : option Z) (within_seconds : Z)
           (entry : AuditLogEntry) : bool :=
  too_old now within_seconds entry
  || match target_id with
     | Some tid => negb (bool_decide (getattr_id (entry_target entry) = Some tid))
     | None => false
     end.

(** The loop: the user of the first entry not passed over. *)
Fixpoint scan_entries (now : Z) (target_id : option Z) (within_seconds : Z)
         (entries : list AuditLogEntry) : option User :=
  match entries with
  | [] => None
  | entry :: rest =>
      if entry_skipped now target_id within_seconds entry
      then scan_entries now target_id within_seconds rest
      else entry_user entry
  end.

(** [guild.audit_logs(limit=n, action=a)]: one request, at most [n] entries,
    newest first. *)
Definition fetch_audit_logs (guild : Guild) (limit : nat)
           (action : AuditLogAction.t) : M E (list AuditLogEntry) :=
  entries <- await (AuditLogs guild limit action) (audit_logs guild limit action) ;;
  ret (take limit entries).

Definition find_audit_actor (guild : Guild) (action : AuditLogAction.t)
           (target_id : option Z) (within_seconds : Z) : M E (option User) :=
  let key : audit_key := (guild_id guild, (action, target_id)) in
  now <- ask utcnow ;;
  last <- gets (fun s => last_audit_lookup s !! key) ;;
  match last with
  | Some t => if seconds_lt now t 1 then asyncio_sleep 1 else ret tt
  | None => ret tt
  end ;;;
  modify (set_last_audit_lookup <[key := now]>) ;;;
  catch
    (entries <- fetch_audit_logs guild 8 action ;;
     ret (scan_entries now target_id within_seconds entries))
    (fun x =>
       match x with
       | Forbidden => ret None
       | NotFound | HTTPException => ret None
       | OtherError => throw x
       end).

(** The default of the [within_seconds] parameter. *)
Definition WITHIN_SECONDS : Z := 20.

Definition invite_spam_reason : string :=
  "Invite-Spam: ≥" ++ pretty INVITE_MAX_IN_WINDOW ++ " in "
    ++ pretty INVITE_WINDOW_SECONDS ++ "s".

(** Lines 168-173: the enforcement once the threshold is crossed. *)
Definition invite_spam_enforcement (message : Message) (guild : Guild) : M E unit :=
  member <- ask (fun e => get_member e guild (user_id (message_author message))) ;;
  match member with
  | Some m =>
      let reason := invite_spam_reason in
      ok <- try_timeout m TIMEOUT_DURATION reason ;;
      if negb ok then safe_kick guild (Some m) reason else ret tt
  | None => ret tt
  end.

Definition on_message (message : Message) : M E unit :=
  match user_bot (message_author message), message_guild message with
  | false, Some guild =>
      if Regex.search INVITE_REGEX (message_content message) then
        catch (await (Delete message) (message_delete message))
              (fun x =>
                 match x with
                 | Forbidden | NotFound => ret tt
                 | HTTPException => ret tt
                 | OtherError => throw x
                 end) ;;;
        let author_id := user_id (message_author message) in
        if negb (is_whitelisted author_id) then
          now <- ask utcnow ;;
          dq <- gets (fun s => default [] (invite_events s !! author_id)) ;;
          let dq := record_post dq now in
          modify (set_invite_events <[author_id := dq]>) ;;;
          if is_over_threshold dq
          then invite_spam_enforcement message guild
          else ret tt
        else ret tt
      else ret tt
  | _, _ => ret tt
  end.

(** The shape shared by the audit handlers after the lookup:
    [if actor and not is_whitelisted(actor.id): m = guild.get_member(actor.id);
     if m: await safe_kick(guild, m, reason)]. *)
Definition on_member_join (member : Member) : M E unit :=
  if member_bot member then
    asyncio_sleep 1 ;;;
    actor <- find_audit_actor (member_guild member) AuditLogAction.bot_add
               (Some (member_id member)) WITHIN_SECONDS ;;
    match actor with
    | Some a =>
        if negb (is_whitelisted (user_id a)) then
          safe_kick (member_guild member) (Some member)
                    "Nicht-whitelisteter Bot-Invite" ;;;
          inviter_member <- ask (fun e => get_member e (member_guild member) (user_id a)) ;;
          match inviter_member with
          | Some im => safe_kick (member_guild member) (Some im)
                                 "Bot-Invite ohne Whitelist"
          | None => ret tt
          end
        else ret tt
    | None => ret tt
    end
  else ret tt.

End Handlers.

(** ** The audit handlers and the webhook handler *)

Section AuditHandlers.
Context {E : Type} {P : Platform E}.

Definition on_guild_channel_delete (channel : Channel) : M E unit :=
  asyncio_sleep 1 ;;;
  actor <- find_audit_actor (channel_guild channel) AuditLogAction.channel_delete
             (Some (channel_id channel)) WITHIN_SECONDS ;;
  match actor with
  | Some a =>
      if negb (is_whitelisted (user_id a)) then
        m <- ask (fun e => get_member e (channel_guild channel) (user_id a)) ;;
        match m with
        | Some m => safe_kick (channel_guild channel) (Some m)
                              "Kanal gelöscht ohne Whitelist"
        | None => ret tt
        end
      else ret tt
  | None => ret tt
  end.

Definition on_guild_role_delete (role : Role) : M E unit :=
  asyncio_sleep 1 ;;;
  actor <- find_audit_actor (role_guild role) AuditLogAction.role_delete
             (Some (role_id role)) WITHIN_SECONDS ;;
  match actor with
  | Some a =>
      if negb (is_whitelisted (user_id a)) then
        m <- ask (fun e => get_member e (role_guild role) (user_id a)) ;;
        match m with
        | Some m => safe_kick (role_guild role) (Some m)
                              "Rolle gelöscht ohne Whitelist"
        | None => ret tt
        end
      else ret tt
  | None => ret tt
  end.

Definition on_member_ban (guild : Guild) (user : User) : M E unit :=
  asyncio_sleep 1 ;;;
  actor <- find_audit_actor guild AuditLogAction.ban
             (Some (user_id user)) WITHIN_SECONDS ;;
  match actor with
  | Some a =>
      if negb (is_whitelisted (user_id a)) then
        m <- ask (fun e => get_member e guild (user_id a)) ;;
        match m with
        | Some m => safe_kick guild (Some m) "Ban ohne Whitelist"
        | None => ret tt
        end
      else ret tt
  | None => ret tt
  end.

Definition on_member_remove (member : Member) : M E unit :=
  asyncio_sleep 1 ;;;
  let guild := member_guild member in
  actor <- find_audit_actor guild AuditLogAction.kick
             (Some (member_id member)) WITHIN_SECONDS ;;
  match actor with
  | Some a =>
      if negb (is_whitelisted (user_id a)) then
        m <- ask (fun e => get_member e guild (user_id a)) ;;
        match m with
        | Some m => safe_kick guild (Some m) "Kick ohne Whitelist"
        | None => ret tt
        end
      else ret tt
  | None => ret tt
  end.

(** [next((w for w in hooks if w.id == tid), None)]; [tid] is
    [getattr(target_webhook, "id", None)]. *)
Definition find_hook (tid : option Z) (hooks : list Webhook) : option Webhook :=
  List.find (fun w => bool_decide (Some (webhook_id w) = tid)) hooks.

(** Lines 264-273: the fallback search through [guild.text_channels]. *)
Fixpoint search_channels (tid : option Z) (chs : list Channel)
  : M E (option Webhook) :=
  match chs with
  | [] => ret None
  | ch :: rest =>
      catch
        (hooks <- await (Webhooks ch) (channel_webhooks ch) ;;
         match find_hook tid hooks with
         | Some w => ret (Some w)
         | None => search_channels tid rest
         end)
        (fun x =>
           match x with
           | Forbidden => search_channels tid rest
           | _ => throw x
           end)
  end.

(** Lines 258-280: locate the webhook and delete it. *)
Definition delete_webhook (channel : Channel) (target_webhook : Target) : M E unit :=
  let guild := channel_guild channel in
  let tid := getattr_id (Some target_webhook) in
  catch
    (hooks <- await (Webhooks channel) (channel_webhooks channel) ;;
     wh <- match find_hook tid hooks with
           | Some w => ret (Some w)
           | None =>
               chs <- ask (fun e => text_channels e guild) ;;
               search_channels tid chs
           end ;;
     match wh with
     | Some w =>
         let reason := "Webhook von nicht-whitelistetem Nutzer" in
         await (WebhookDelete w reason) (webhook_delete w reason)
     | None => ret tt
     end)
    (fun x =>
       match x with
       | Forbidden => ret tt
       | NotFound | HTTPException => ret tt
       | OtherError => throw x
       end).

(** Lines 283-289: count the attempt and kick at the threshold. *)
Definition count_attempt (guild : Guild) (actor : User) : M E unit :=
  let id := user_id actor in
  modify (set_webhook_attempts
            (fun m => <[id := default 0 (m !! id) + 1]> m)) ;;;
  n <- gets (fun s => default 0 (webhook_attempts s !! id)) ;;
  if WEBHOOK_MAX_ATTEMPTS <=? n then
    member <- ask (fun e => get_member e guild id) ;;
    match member with
    | Some m => safe_kick guild (Some m) "Mehrfach unzulässige Webhook-Erstellung"
    | None => ret tt
    end ;;;
    modify (set_webhook_attempts <[id := 0]>)
  else ret tt.

(** The body of the loop of [on_webhooks_update]. *)
Definition webhook_entry (channel : Channel) (entry : AuditLogEntry) : M E unit :=
  let guild := channel_guild channel in
  now <- ask utcnow ;;
  if too_old now 30 entry then ret tt
  else
    match entry_user entry, entry_target entry with
    | Some actor, Some target_webhook =>
        if is_whitelisted (user_id actor) then ret tt
        else
          delete_webhook channel target_webhook ;;;
          count_attempt guild actor
    | _, _ => ret tt
    end.

Fixpoint for_each {A} (l : list A) (body : A -> M E unit) : M E unit :=
  match l with
  | [] => ret tt
  | x :: rest => body x ;;; for_each rest body
  end.

Definition on_webhooks_update (channel : Channel) : M E unit :=
  let guild := channel_guild channel in
  asyncio_sleep 1 ;;;
  catch
    (entries <- fetch_audit_logs guild 6 AuditLogAction.webhook_create ;;
     for_each entries (webhook_entry channel))
    (fun x =>
       match x with
       | Forbidden => ret tt
       | NotFound | HTTPException => ret tt
       | OtherError => throw x
       end).

End AuditHandlers.

(** ** A small deterministic platform, for running the handlers

    The world holds a clock, the member cache, the audit log (newest entry
    first) and the webhooks of each channel.  Every awaited call takes
    [latency] microseconds; [faults] fixes which calls fail and how.  A kick
    that succeeds removes the member from the cache. *)

Module Sim.

Record World := {
  clock : Z;
  members : list Member;
  audit : list AuditLogEntry;
  channels : list (Channel * list Webhook)
}.

Record Faults := {
  latency : Z;
  on_delete : outcome unit;
  on_edit : outcome unit;
  on_kick : outcome unit;
  on_audit_logs : outcome unit;
  on_webhooks : outcome unit;
  on_webhook_delete : outcome unit
}.

Definition no_faults : Faults :=
  {| latency := 0; on_delete := Done tt; on_edit := Done tt; on_kick := Done tt;
     on_audit_logs := Done tt; on_webhooks := Done tt;
     on_webhook_delete := Done tt |}.

Definition advance (d : Z) (w : World) : World :=
  {| clock := clock w + d; members := members w; audit := audit w;
     channels := channels w |}.

Definition same_member (g : Guild) (id : Z) (m : Member) : bool :=
  (member_id m =? id) && (guild_id (member_guild m) =? guild_id g).

Definition remove_member (g : Guild) (id : Z) (w : World) : World :=
  {| clock := clock w;
     members := List.filter (fun m => negb (same_member g id m)) (members w);
     audit := audit w; channels := channels w |}.

Definition hooks_of (ch : Channel) (w : World) : list Webhook :=
  match List.find (fun p => channel_id (fst p) =? channel_id ch) (channels w) with
  | Some p => snd p
  | None => []
  end.

Definition answer {A} (fault : outcome unit) (a : A) : outcome A :=
  match fault with
  | Done _ => Done a
  | Raised x => Raised x
  end.

Definition platform (f : Faults) : Platform World := {|
  utcnow w := clock w;
  get_member w g id := List.find (same_member g id) (members w);
  text_channels w g :=
    List.filter (fun ch => guild_id (channel_guild ch) =? guild_id g)
                (map fst (channels w));
  sleep n w := advance (n * second) w;
  message_delete _ w := (on_delete f, advance (latency f) w);
  member_edit _ _ _ w := (on_edit f, advance (latency f) w);
  guild_kick g m _ w :=
    (on_kick f,
     advance (latency f)
       match on_kick f with
       | Done _ => remove_member g (member_id m) w
       | Raised _ => w
       end);
  audit_logs _ _ _ w := (answer (on_audit_logs f) (audit w), advance (latency f) w);
  channel_webhooks ch w := (answer (on_webhooks f) (hooks_of ch w), advance (latency f) w);
  webhook_delete _ _ w := (on_webhook_delete f, advance (latency f) w)
|}.

(** A configuration at process start. *)
Definition start (w : World) : config World :=
  {| bot := initial_state; env := w; trace := [] |}.

(** The next event arrives [d] microseconds after the last handler
    finished. *)
Definition later (d : Z) (c : config World) : config World :=
  {| bot := bot c; env := advance d (env c); trace := trace c |}.

Definition calls (c : config World) : list call := map snd (trace c).

Definition the_guild : Guild := {| guild_id := 1 |}.
Definition alice : Member :=
  {| member_id := 100; member_bot := false; member_guild := the_guild |}.
Definition alice_user : User := {| user_id := 100; user_bot := false |}.
Definition admin_user : User :=
  {| user_id := 662596869221908480; user_bot := false |}.
Definition admin : Member :=
  {| member_id := 662596869221908480; member_bot := false;
     member_guild := the_guild |}.
Definition general : Channel := {| channel_id := 7; channel_guild := the_guild |}.
Definition hook : Webhook := {| webhook_id := 55 |}.

Definition world0 : World :=
  {| clock := 0; members := [alice; admin]; audit := [];
     channels := [(general, [hook])] |}.

Definition invite (id : Z) (author : User) : Message :=
  {| message_id := id; message_author := author;
     message_guild := Some the_guild;
     message_content := Regex.code_points "join discord.gg/abc" |}.

Definition bob : Member :=
  {| member_id := 200; member_bot := false; member_guild := the_guild |}.
Definition bob_user : User := {| user_id := 200; user_bot := false |}.
Definition a_bot : User := {| user_id := 300; user_bot := true |}.

(** The timeout is refused, the kick goes through. *)
Definition edit_forbidden : Faults :=
  {| latency := 0; on_delete := Done tt; on_edit := Raised Forbidden;
     on_kick := Done tt; on_audit_logs := Done tt; on_webhooks := Done tt;
     on_webhook_delete := Done tt |}.


(** Three lookups for the same key, started at 0 s, 0.5 s and 1.6 s. *)
Definition lookup (c : config World) : config World :=
snd (find_audit_actor (P := platform no_faults) the_guild AuditLogAction.kick
       (Some 100) WITHIN_SECONDS c).

Definition three_lookups : config World :=
lookup (later 100000 (lookup (later 500000 (lookup (start world0))))).

(** The clock at each audit query of a trace. *)
Definition query_times (c : config World) : list Z :=
omap (fun ev => match snd ev with
                | AuditLogs _ _ _ => Some (clock (fst ev))
                | _ => None
                end) (trace c).

(** Listing the webhooks of a channel is refused. *)
Definition hooks_forbidden : Faults :=
{| latency := 0; on_delete := Done tt; on_edit := Done tt; on_kick := Done tt;
   on_audit_logs := Done tt; on_webhooks := Raised Forbidden;
   on_webhook_delete := Done tt |}.

(** A webhook-create record by bob, written at time 0. *)
Definition bobs_webhook : AuditLogEntry :=
{| entry_created_at := Some 0; entry_user := Some bob_user;
   entry_target := Some {| target_id := Some 55 |} |}.

(** One more webhook violation of alice. *)
Definition violate (c : config World) : config World :=
snd (count_attempt (P := platform no_faults) the_guild alice_user c).

(** Alice posts the invite link [k]. *)
Definition post (k : Z) (c : config World) : config World :=
snd (on_message (P := platform no_faults) (invite k alice_user) c).

(** Five invite links of alice, one second apart. *)
Definition burst : list (Message * config World) :=
let c1 := start world0 in
let c2 := later second (post 1 c1) in
let c3 := later second (post 2 c2) in
let c4 := later second (post 3 c3) in
let c5 := later second (post 4 c4) in
[(invite 1 alice_user, c1); (invite 2 alice_user, c2); (invite 3 alice_user, c3);
 (invite 4 alice_user, c4); (invite 5 alice_user, c5)].

Definition burst_last : Message * config World :=
List.last burst (invite 0 alice_user, start world0).

(** Audit records: one written 21 s before the lookup, one 20 s before it. *)
Definition record_at (t : Z) (actor : User) (target : Z) : AuditLogEntry :=
{| entry_created_at := Some t; entry_user := Some actor;
   entry_target := Some {| target_id := Some target |} |}.

Definition world_with_audit (now : Z) (entries : list AuditLogEntry) : World :=
{| clock := now; members := [alice; admin]; audit := entries;
   channels := [(general, [hook])] |}.

End Sim.

(** ** Vocabulary of the statements *)

(** [t] lies in the 15-second span that ends at [now]. *)
Definition in_span (now t : Z) : bool :=
  negb (seconds_gt now t INVITE_WINDOW_SECONDS).

Definition posts_in_span (now : Z) (posts : list Z) : nat :=
  length (List.filter (in_span now) posts).

(** The window of an account after its invite posts at the given times,
    oldest first, starting from the empty window of a fresh process. *)
Definition window_after (posts : list Z) : list Z :=
  fold_left record_post posts [].

(** Consecutive posts are at least [INVITE_WINDOW_SECONDS] apart. *)
Fixpoint spaced_apart (posts : list Z) : Prop :=
  match posts with
  | a :: rest =>
      match rest with
      | b :: _ => INVITE_WINDOW_SECONDS * second <= b - a
      | [] => True
      end /\ spaced_apart rest
  | [] => True
  end.

Section Vocabulary.
Context {E : Type} {P : Platform E}.

(** The invite window of an account. *)
Definition window (author : Z) (c : config E) : list Z :=
  default [] (invite_events (bot c) !! author).

(** The configuration [on_message] reaches once it has deleted the message
    and recorded the post. *)
Definition posted (message : Message) (c : config E) : config E :=
  let id := user_id (message_author message) in
  let c1 := issued c (Delete message) (snd (message_delete message (env c))) in
  let dq := record_post (default [] (invite_events (bot c) !! id)) (utcnow (env c1)) in
  {| bot := set_invite_events <[id := dq]> (bot c); env := env c1; trace := trace c1 |}.

(** The time [on_message] records for a post: the clock after the delete
    call. *)
Definition post_time (run : Message * config E) : Z :=
  utcnow (snd (message_delete (fst run) (env (snd run)))).

(** The call is aimed at an account the member cache holds in the state
    [fst ev] in which it is issued. *)
Definition on_current_member (message : Message) (ev : E * call) : Prop :=
  match snd ev with
  | Timeout m _ _ =>
      exists guild,
        message_guild message = Some guild
        /\ get_member (fst ev) guild (user_id (message_author message)) = Some m
  | Kick g m _ => is_Some (get_member (fst ev) g (member_id m))
  | _ => True
  end.

(** The configuration in which [find_audit_actor] issues its query: after
    the rate-limit block, lines 110-114. *)
Definition throttled (guild : Guild) (action : AuditLogAction.t)
           (target_id : option Z) (c : config E) : config E :=
  let key : audit_key := (guild_id guild, (action, target_id)) in
  let now := utcnow (env c) in
  let c' := match last_audit_lookup (bot c) !! key with
            | Some t =>
                if seconds_lt now t 1
                then issued c (Sleep 1) (sleep 1 (env c))
                else c
            | None => c
            end in
  {| bot := set_last_audit_lookup <[key := now]> (bot c');
     env := env c'; trace := trace c' |}.

(** What the audit handlers learn: the lookup that follows their
    one-second wait. *)
Definition attributed (guild : Guild) (action : AuditLogAction.t) (target : Z)
           (c : config E) : outcome (option User) * config E :=
  find_audit_actor guild action (Some target) WITHIN_SECONDS
                   (snd (asyncio_sleep 1 c)).

(** The count of webhook attempts of an account. *)
Definition attempts (actor : User) (c : config E) : Z :=
default 0 (webhook_attempts (bot c) !! user_id actor).

Definition webhook_kick_reason : string := "Mehrfach unzulässige Webhook-Erstellung".

(** A computation that leaves the module state alone and raises nothing
    but an [HTTPException]. *)
Definition quiet {A} (m : M E A) : Prop :=
forall c, bot (snd (m c)) = bot c /\ absorbed (fst (m c)).

(** An invite link posted by [author] in [guild], handled from the
    configuration [snd run]; the delete call returns or fails with an
    [HTTPException]. *)
Definition invite_post (author : Z) (guild : Guild) (run : Message * config E) : Prop :=
user_id (message_author (fst run)) = author
/\ user_bot (message_author (fst run)) = false
/\ message_guild (fst run) = Some guild
/\ Regex.search INVITE_REGEX (message_content (fst run)) = true
/\ absorbed (fst (message_delete (fst run) (env (snd run)))).

(** Each handler starts with the window of [author] as the handler before
    it left it; everything else may have changed in between. *)
Fixpoint chained (author : Z) (runs : list (Message * config E)) : Prop :=
match runs with
| r1 :: rest =>
    match rest with
    | r2 :: _ =>
        window author (snd r2)
        = window author (snd (on_message (fst r1) (snd r1)))
    | [] => True
    end /\ chained author rest
| [] => True
end.

(** Any two of the times are at most [n] seconds apart. *)
Definition within (n : Z) (times : list Z) : Prop :=
forall a b, a ∈ times -> b ∈ times -> b - a <= n * second.

(** The same for any caller: a kick or a timeout is aimed at an account that
    the member cache holds in the state in which the call is issued. *)
Definition targets_cached_member (ev : E * call) : Prop :=
match snd ev with
| Timeout m _ _ => exists guild id, get_member (fst ev) guild id = Some m
| Kick g m _ => is_Some (get_member (fst ev) g (member_id m))
| _ => True
end.

(** A computation all of whose kicks and timeouts are so aimed. *)
Definition checked {A} (m : M E A) : Prop :=
forall c, exists evs,
  trace (snd (m c)) = trace c ++ evs /\ Forall targets_cached_member evs.

End Vocabulary.

(** Four posts, one second apart. *)
Definition quick_posts : list Z := [0; 1 * second; 2 * second; 3 * second].

(** ** Vocabulary of the further properties *)

(** ASCII letters in upper and in lower case; other code points are kept. *)
Definition ascii_upper (x : Z) : Z :=
  if (97 <=? x) && (x <=? 122) then x - 32 else x.

Definition ascii_lower (x : Z) : Z :=
  if (65 <=? x) && (x <=? 90) then x + 32 else x.

(** [INVITE_REGEX] without its two optional groups:
    [(?:discord\.gg|discord\.com/invite)/[A-Za-z0-9\-]+]. *)
Definition INVITE_CORE : Regex.re :=
  Regex.Cat (Regex.Alt (Regex.Str "discord.gg") (Regex.Str "discord.com/invite"))
 (Regex.Cat (Regex.Str "/")
            (Regex.PlusSet [(65, 90); (97, 122); (48, 57); (45, 45)])).

Section Relations.
Context {E : Type} {P : Platform E}.

(** Every run of [m] takes a configuration to one related to it by [R]. *)
Definition steps {A} (R : config E -> config E -> Prop) (m : M E A) : Prop :=
forall c, R c (snd (m c)).

(** The calls added to the trace all satisfy [Q]. *)
Definition emits (Q : call -> Prop) (c c' : config E) : Prop :=
exists evs, trace c' = trace c ++ evs /\ Forall (fun ev => Q (snd ev)) evs.

(** The module state differs at most in the window of [author]. *)
Definition same_but_window (author : Z) (c c' : config E) : Prop :=
webhook_attempts (bot c') = webhook_attempts (bot c)
/\ last_audit_lookup (bot c') = last_audit_lookup (bot c)
/\ forall id, id <> author ->
              invite_events (bot c') !! id = invite_events (bot c) !! id.

(** The module state differs at most in the throttle entry of [key]. *)
Definition same_but_throttle (key : audit_key) (c c' : config E) : Prop :=
invite_events (bot c') = invite_events (bot c)
/\ webhook_attempts (bot c') = webhook_attempts (bot c)
/\ forall k, k <> key ->
             last_audit_lookup (bot c') !! k = last_audit_lookup (bot c) !! k.

(** The module state differs at most in the webhook counters. *)
Definition same_but_attempts (c c' : config E) : Prop :=
invite_events (bot c') = invite_events (bot c)
/\ last_audit_lookup (bot c') = last_audit_lookup (bot c).

(** The calls of [on_message]. *)
Definition message_calls (message : Message) (what : call) : Prop :=
match what with
| Delete m => m = message
| Timeout _ _ reason => reason = invite_spam_reason
| Kick g _ reason => message_guild message = Some g /\ reason = invite_spam_reason
| _ => False
end.

(** The calls of an audit handler for [action] in [guild], which kicks with
    one of [reasons]. *)
Definition audit_calls (guild : Guild) (action : AuditLogAction.t)
           (reasons : list string) (what : call) : Prop :=
match what with
| Sleep n => n = 1
| AuditLogs g limit a => g = guild /\ limit = 8%nat /\ a = action
| Kick g _ reason => g = guild /\ reason ∈ reasons
| _ => False
end.

(** The calls of [on_webhooks_update] for [channel] after its sleep. *)
Definition webhook_calls (channel : Channel) (what : call) : Prop :=
match what with
| AuditLogs g limit a =>
    g = channel_guild channel /\ limit = 6%nat /\ a = AuditLogAction.webhook_create
| Webhooks _ => True
| WebhookDelete _ reason => reason = "Webhook von nicht-whitelistetem Nutzer"
| Kick g _ reason => g = channel_guild channel /\ reason = webhook_kick_reason
| _ => False
end.

(** [m] always returns. *)
Definition never_raises {A} (m : M E A) : Prop :=
forall c, exists a, fst (m c) = Done a.

(** [m] returns or raises an [HTTPException]. *)
Definition tame {A} (m : M E A) : Prop :=
forall c, absorbed (fst (m c)).

(** Every call of the platform returns or raises an [HTTPException]. *)
Definition http_only : Prop :=
(forall m e, absorbed (fst (message_delete m e)))
/\ (forall m until reason e, absorbed (fst (member_edit m until reason e)))
/\ (forall g m reason e, absorbed (fst (guild_kick g m reason e)))
/\ (forall g limit a e, absorbed (fst (audit_logs g limit a e)))
/\ (forall ch e, absorbed (fst (channel_webhooks ch e)))
/\ (forall w reason e, absorbed (fst (webhook_delete w reason e))).

End Relations.

(** ** More runs on the simulated platform *)

Module Scenes.

(** Every call of the platform is refused. *)
Definition all_forbidden : Sim.Faults :=
{| Sim.latency := 0; Sim.on_delete := Raised Forbidden;
   Sim.on_edit := Raised Forbidden; Sim.on_kick := Raised Forbidden;
   Sim.on_audit_logs := Raised Forbidden; Sim.on_webhooks := Raised Forbidden;
   Sim.on_webhook_delete := Raised Forbidden |}.

(** A bot whose own id is on the whitelist, added by alice at time 0. *)
Definition trusted_bot : Member :=
{| member_id := 235148962103951360; member_bot := true;
   member_guild := Sim.the_guild |}.

Definition bot_added_by_alice : Sim.World :=
{| Sim.clock := 0; Sim.members := [Sim.alice; Sim.admin; trusted_bot];
   Sim.audit := [Sim.record_at 0 Sim.alice_user 235148962103951360];
   Sim.channels := [(Sim.general, [Sim.hook])] |}.

(** The channel [general] deleted by alice at 5 s. *)
Definition channel_deleted_by_alice : Sim.World :=
Sim.world_with_audit (5 * second) [Sim.record_at (5 * second) Sim.alice_user 7].

(** A page whose newest record for the target has no user. *)
Definition record_without_user : AuditLogEntry :=
{| entry_created_at := Some (29 * second); entry_user := None;
   entry_target := Some {| target_id := Some 7 |} |}.

Definition page_with_anonymous_record : Sim.World :=
Sim.world_with_audit (30 * second)
  [record_without_user; Sim.record_at (28 * second) Sim.bob_user 7].

(** The webhook of [general] was created by a whitelisted account. *)
Definition webhook_by_admin : Sim.World :=
Sim.world_with_audit 0 [Sim.record_at 0 Sim.admin_user 55].

(** Kicks fail with an exception outside [HTTPException]. *)
Definition kick_breaks : Sim.Faults :=
{| Sim.latency := 0; Sim.on_delete := Done tt; Sim.on_edit := Done tt;
   Sim.on_kick := Raised OtherError; Sim.on_audit_logs := Done tt;
   Sim.on_webhooks := Done tt; Sim.on_webhook_delete := Done tt |}.

(** One webhook-create record of bob, seen by two webhook events. *)
Definition webhook_by_bob : Sim.World :=
Sim.world_with_audit 0 [Sim.record_at 0 Sim.bob_user 55].

End Scenes.

Section Repetition.
Context {E : Type} {P : Platform E}.

(** [n] webhook violations of [actor], counted one after the other. *)
Fixpoint violations (n : nat) (guild : Guild) (actor : User) (c : config E)
  : config E :=
match n with
| O => c
| S n' => violations n' guild actor (snd (count_attempt guild actor c))
end.

(** A record the loop of [on_webhooks_update] passes over at time [now]. *)
Definition passed_over (now : Z) (entry : AuditLogEntry) : Prop :=
too_old now 30 entry = true
\/ entry_user entry = None
\/ entry_target entry = None
\/ exists a, entry_user entry = Some a /\ is_whitelisted (user_id a) = true.

End Repetition.

(** * Properties *)

Example search_examples :
  map (fun s => Regex.search INVITE_REGEX (Regex.code_points s))
      ["discord.gg/abc"; "DISCORD.GG/-"; "discord.gg/"; "x discord.com/invite/a_b";
       "discord.com/invit/a"; "discord,gg/a"; "see https://www.discord.gg/Ab9 now"]
  = [true; true; false; true; false; false; true].
Proof. vm_compute. reflexivity. Qed.

Example search_folds_case :
  map (Regex.search INVITE_REGEX)
      [ [100; 105; 383; 99; 111; 114; 100; 46; 103; 103; 47; 120];
        [100; 304; 115; 99; 111; 114; 100; 46; 103; 103; 47; 8490];
        [100; 105; 115; 99; 111; 114; 100; 46; 103; 103; 47; 95] ]
  = [true; true; false].
Proof. vm_compute. reflexivity. Qed.

Example reason_text : invite_spam_reason = "Invite-Spam: ≥5 in 15s".
Proof. vm_compute. reflexivity. Qed.

Example whitelisted_examples :
  map is_whitelisted [662596869221908480; 235148962103951360; 100; 0]
  = [true; true; false; false].
Proof. vm_compute. reflexivity. Qed.

(** ** The invite window *)

Section Window.

Lemma purge_split now dq :
  exists old, dq = old ++ purge now dq
              /\ Forall (fun t => in_span now t = false) old.
Proof.
  induction dq as [|t rest [old [Heq Hold]]]; simpl.
  - exists []. split; [reflexivity | constructor].
  - destruct (seconds_gt now t INVITE_WINDOW_SECONDS) eqn:Hgt.
    + exists (t :: old). split.
      * simpl. congruence.
      * constructor; [unfold in_span; rewrite Hgt; reflexivity | exact Hold].
    + exists []. split; [reflexivity | constructor].
Qed.

Lemma purge_head now dq t rest :
  purge now dq = t :: rest -> in_span now t = true.
Proof.
  induction dq as [|x dq IH]; simpl; [discriminate |].
  destruct (seconds_gt now x INVITE_WINDOW_SECONDS) eqn:Hgt; [exact IH |].
  intros [= -> _]. unfold in_span. rewrite Hgt. reflexivity.
Qed.

Lemma in_span_le now a b : a <= b -> in_span now a = true -> in_span now b = true.
Proof.
  unfold in_span, seconds_gt. rewrite !negb_true_iff, !Z.ltb_ge. lia.
Qed.

Lemma stale_le now a b : a <= b -> in_span now b = false -> in_span now a = false.
Proof.
  unfold in_span, seconds_gt. rewrite !negb_false_iff, !Z.ltb_lt. lia.
Qed.

Lemma stale_later now now' t :
  now <= now' -> in_span now t = false -> in_span now' t = false.
Proof.
  unfold in_span, seconds_gt. rewrite !negb_false_iff, !Z.ltb_lt. lia.
Qed.

Lemma in_span_now now : in_span now now = true.
Proof.
  unfold in_span, seconds_gt, INVITE_WINDOW_SECONDS, second.
  rewrite negb_true_iff, Z.ltb_ge. lia.
Qed.

(** What [deque_append] leaves in front of the deque: nothing, or the one
    entry a full deque drops. *)
Lemma deque_append_split dq x :
  (length dq <= DEQUE_MAXLEN)%nat ->
  exists dropped,
    dq ++ [x] = dropped ++ deque_append dq x
    /\ (length (deque_append dq x) <= DEQUE_MAXLEN)%nat
    /\ (dropped = [] /\ (length dq < DEQUE_MAXLEN)%nat
        \/ length (deque_append dq x) = DEQUE_MAXLEN).
Proof.
  intros Hlen. unfold deque_append.
  destruct (DEQUE_MAXLEN <=? length dq)%nat eqn:Hfull.
  - apply Nat.leb_le in Hfull.
    destruct dq as [|t dq]; [unfold DEQUE_MAXLEN in Hfull; simpl in Hfull; lia |].
    exists [t]. simpl in *. rewrite length_app. simpl.
    split; [reflexivity |]. split; [lia |]. right. lia.
  - apply Nat.leb_gt in Hfull. exists []. rewrite length_app. simpl.
    split; [reflexivity |]. split; [lia |]. left. split; [reflexivity | lia].
Qed.

Lemma window_after_snoc posts t :
  window_after (posts ++ [t]) = record_post (window_after posts) t.
Proof. unfold window_after. rewrite fold_left_app. reflexivity. Qed.

(** The window is a suffix of the history, holds only posts of the current
    span, and misses a post of the span only when it is full. *)
Lemma window_invariant posts :
  StronglySorted Z.le posts ->
  exists pre,
    posts = pre ++ window_after posts
    /\ (length (window_after posts) <= DEQUE_MAXLEN)%nat
    /\ forall now, last posts = Some now ->
         Forall (fun t => in_span now t = true) (window_after posts)
         /\ (Forall (fun t => in_span now t = false) pre
             \/ length (window_after posts) = DEQUE_MAXLEN).
Proof.
  induction posts as [|t h IH] using rev_ind; intros Hsorted.
  - exists []. split; [reflexivity |]. split; [unfold DEQUE_MAXLEN; simpl; lia |].
    discriminate.
  - pose proof (StronglySorted_app_1_l _ _ _ Hsorted) as Hh.
    destruct (IH Hh) as (pre & Hpre & Hlen & Hlast). clear IH.
    rewrite window_after_snoc. unfold record_post.
    remember (window_after h) as W eqn:HW.
    destruct (deque_append_split W t Hlen) as (dropped & Hda & Hlen' & Hfull).
    remember (deque_append W t) as l eqn:Hl0.
    destruct (purge_split t l) as (old & Hold & Hstale).
    assert (Hall : h ++ [t] = (pre ++ dropped ++ old) ++ purge t l).
    { rewrite Hpre at 1. rewrite <- !app_assoc. f_equal. rewrite <- Hold. exact Hda. }
    exists (pre ++ dropped ++ old). split; [exact Hall |]. split.
    { apply (f_equal length) in Hold. rewrite length_app in Hold. lia. }
    intros now Hnow. rewrite last_snoc in Hnow. injection Hnow as <-.
    rewrite Hall in Hsorted. split.
    + destruct (purge t l) as [|x rest] eqn:Hp; [constructor |].
      pose proof (purge_head _ _ _ _ Hp) as Hx.
      apply StronglySorted_app_1_r in Hsorted.
      apply StronglySorted_cons in Hsorted as [Hle _].
      constructor; [exact Hx |].
      eapply Forall_impl; [exact Hle |]. simpl. intros y Hy.
      eapply in_span_le; eassumption.
    + destruct old as [|o old].
      * simpl in Hold. rewrite <- Hold. rewrite app_nil_r in *.
        destruct Hfull as [[-> Hlt] | Hfull]; [| right; exact Hfull].
        left. rewrite app_nil_r.
        destruct (last h) as [t'|] eqn:Hl.
        -- destruct (Hlast t' eq_refl) as [_ [Hst | Hf]]; [| lia].
           eapply Forall_impl; [exact Hst |]. simpl. intros y Hy.
           eapply stale_later; [| exact Hy].
           apply last_Some in Hl as [h' ->].
           rewrite <- Hall in Hsorted.
           eapply (StronglySorted_app_1_elem_of _ _ _ _ _ Hsorted);
             [apply elem_of_app; right |]; constructor.
        -- apply last_None in Hl. subst h.
           destruct pre; [constructor | discriminate].
      * left. apply Forall_inv in Hstale as Ho.
        rewrite app_assoc. apply Forall_app. split.
        -- apply Forall_forall. intros y Hy.
           eapply stale_le; [| exact Ho].
           rewrite app_assoc, <- (app_assoc _ (o :: old)) in Hsorted.
           eapply (StronglySorted_app_1_elem_of _ _ _ _ _ Hsorted);
             [exact Hy | apply elem_of_app; left; constructor].
        -- exact Hstale.
Qed.

End Window.

Section Threshold.

Lemma filter_all {A} (f : A -> bool) l :
  Forall (fun t => f t = true) l -> List.filter f l = l.
Proof.
  induction 1 as [|x l Hx _ IH]; simpl; [reflexivity |].
  rewrite Hx, IH. reflexivity.
Qed.

Lemma filter_none {A} (f : A -> bool) l :
  Forall (fun t => f t = false) l -> List.filter f l = [].
Proof.
  induction 1 as [|x l Hx _ IH]; simpl; [reflexivity |].
  rewrite Hx, IH. reflexivity.
Qed.

Lemma spaced_apart_suffix pre l : spaced_apart (pre ++ l) -> spaced_apart l.
Proof.
  induction pre as [|x pre IH]; simpl; [trivial |].
  intros [_ H]. apply IH, H.
Qed.

Lemma sorted_le_last h now x :
  StronglySorted Z.le (h ++ [now]) -> x ∈ h ++ [now] -> x <= now.
Proof.
  intros Hs Hx. apply elem_of_app in Hx as [Hx | Hx].
  - eapply (StronglySorted_app_1_elem_of _ _ _ _ _ Hs); [exact Hx | constructor].
  - apply list_elem_of_singleton in Hx. lia.
Qed.

(** C2: after the posts of one account, made at non-decreasing times, the
    threshold check at the latest post holds iff at least 5 of the posts
    lie in the 15-second span ending at that post; posts that are at least
    15 seconds apart never make it hold. *)
Theorem threshold_iff_five_in_span (h : list Z) (now : Z) :
  StronglySorted Z.le (h ++ [now]) ->
  (is_over_threshold (window_after (h ++ [now])) = true
   <-> (INVITE_MAX_IN_WINDOW <= posts_in_span now (h ++ [now]))%nat)
  /\ (spaced_apart (h ++ [now])
      -> is_over_threshold (window_after (h ++ [now])) = false).
Proof.
  intros Hsorted.
  destruct (window_invariant _ Hsorted) as (pre & Hpre & Hlen & Hlast).
  destruct (Hlast now (last_snoc _ _)) as [Hin Hout]. clear Hlast.
  remember (window_after (h ++ [now])) as W eqn:HW.
  unfold is_over_threshold. split.
  - unfold posts_in_span. rewrite Hpre.
    rewrite List.filter_app, length_app, (filter_all _ _ Hin).
    rewrite Nat.leb_le. destruct Hout as [Hstale | Hfull].
    + rewrite (filter_none _ _ Hstale). simpl. reflexivity.
    + rewrite Hfull. unfold INVITE_MAX_IN_WINDOW, DEQUE_MAXLEN. lia.
  - intros Hspaced. apply Nat.leb_gt.
    rewrite Hpre in Hspaced. apply spaced_apart_suffix in Hspaced.
    destruct W as [|a [|b [|c W]]]; simpl; unfold INVITE_MAX_IN_WINDOW; try lia.
    exfalso. simpl in Hspaced. destruct Hspaced as (Hab & Hbc & _).
    assert (Hc : c <= now).
    { apply (sorted_le_last h now c Hsorted). rewrite Hpre.
      apply elem_of_app. right. do 2 right. left. }
    apply Forall_inv in Hin. revert Hin.
    unfold in_span, seconds_gt. rewrite negb_true_iff, Z.ltb_ge.
    unfold INVITE_WINDOW_SECONDS, second in *. lia.
Qed.

Lemma threshold_iff_five_in_span_witness :
  (is_over_threshold (window_after (quick_posts ++ [4 * second])) = true
   <-> Nat.le INVITE_MAX_IN_WINDOW
              (posts_in_span (4 * second) (quick_posts ++ [4 * second])))
  /\ (spaced_apart (quick_posts ++ [4 * second])
      -> is_over_threshold (window_after (quick_posts ++ [4 * second])) = false).
Proof.
  apply (threshold_iff_five_in_span quick_posts (4 * second)).
  repeat constructor; unfold second; lia.
Defined.

Example five_quick_posts_cross :
  is_over_threshold (window_after [0; 1 * second; 2 * second; 3 * second; 4 * second])
  = true.
Proof. reflexivity. Qed.

Example posts_fifteen_apart_do_not_cross :
  map (fun n => is_over_threshold
                  (window_after (map (fun k => Z.of_nat k * 15 * second) (seq 0 n))))
      [1; 2; 5; 9]%nat
  = [false; false; false; false].
Proof. reflexivity. Qed.

Example window_keeps_boundary_post :
  window_after [0; 15 * second] = [0; 15 * second]
  /\ window_after [0; 15 * second + 1] = [15 * second + 1].
Proof. split; reflexivity. Qed.

(** The hypothesis on the order of the times is needed: the purge stops at
    the first entry that is recent enough, so after a wall clock set back by
    100 s the window keeps three entries of another span. *)
Example clock_set_back :
  is_over_threshold (window_after [100 * second; 0; 0; 0; 16 * second]) = true
  /\ posts_in_span (16 * second) [100 * second; 0; 0; 0; 16 * second] = 2%nat.
Proof. split; reflexivity. Qed.

End Threshold.

(** ** The enforcement actuator *)

Section Actuator.
Context {E : Type} {P : Platform E}.

Lemma safe_kick_run guild m reason (c : config E) :
  safe_kick guild (Some m) reason c =
  match get_member (env c) guild (member_id m) with
  | None => (Done tt, c)
  | Some _ =>
      let r := guild_kick guild m reason (env c) in
      (match fst r with
       | Raised OtherError => Raised OtherError
       | _ => Done tt
       end,
       issued c (Kick guild m reason) (snd r))
  end.
Proof.
  unfold safe_kick, catch, bind, ask, await, ret, throw, issued.
  destruct (get_member (env c) guild (member_id m)); [| reflexivity].
  destruct (guild_kick guild m reason (env c)) as [[[]|[]] e']; reflexivity.
Qed.

Lemma try_timeout_run m duration reason (c : config E) :
  try_timeout m duration reason c =
  let until := utcnow (env c) + duration in
  let r := member_edit m until reason (env c) in
  (match fst r with
   | Done _ => Done true
   | Raised OtherError => Raised OtherError
   | Raised _ => Done false
   end,
   issued c (Timeout m until reason) (snd r)).
Proof.
  unfold try_timeout, catch, bind, ask, await, ret, throw, issued. simpl.
  destruct (member_edit m (utcnow (env c) + duration) reason (env c))
    as [[[]|[]] e']; reflexivity.
Qed.

End Actuator.

(** ** The message handler *)

Section OnMessage.
Context {E : Type} {P : Platform E}.

Lemma invite_spam_enforcement_run message guild (c : config E) :
  invite_spam_enforcement message guild c =
  match get_member (env c) guild (user_id (message_author message)) with
  | None => (Done tt, c)
  | Some m =>
      let t := try_timeout m TIMEOUT_DURATION invite_spam_reason c in
      match fst t with
      | Done true => (Done tt, snd t)
      | Done false => safe_kick guild (Some m) invite_spam_reason (snd t)
      | Raised x => (Raised x, snd t)
      end
  end.
Proof.
  unfold invite_spam_enforcement, bind, ask, ret. simpl.
  destruct (get_member _ _ _); [| reflexivity].
  destruct (try_timeout _ _ _ c) as [[[]|x] c']; reflexivity.
Qed.

Lemma on_message_run message guild (c : config E) :
  user_bot (message_author message) = false ->
  message_guild message = Some guild ->
  Regex.search INVITE_REGEX (message_content message) = true ->
  on_message message c =
  let id := user_id (message_author message) in
  let d := message_delete message (env c) in
  let c1 := issued c (Delete message) (snd d) in
  match fst d with
  | Raised OtherError => (Raised OtherError, c1)
  | _ =>
      if is_whitelisted id then (Done tt, c1)
      else if is_over_threshold
                (record_post (default [] (invite_events (bot c) !! id))
                             (utcnow (snd d)))
           then invite_spam_enforcement message guild (posted message c)
           else (Done tt, posted message c)
  end.
Proof.
  intros Hbot Hguild Hre. unfold on_message, posted.
  rewrite Hbot, Hguild, Hre.
  unfold catch, bind, await, ask, gets, modify, ret, throw. simpl.
  destruct (message_delete message (env c)) as [[[]|[]] e']; simpl;
    try reflexivity;
    destruct (is_whitelisted _); simpl; try reflexivity;
    destruct (is_over_threshold _); reflexivity.
Qed.

End OnMessage.

Section MessageProperties.
Context {E : Type} {P : Platform E}.

Lemma on_message_of_bot message (c : config E) :
user_bot (message_author message) = true -> on_message message c = (Done tt, c).
Proof. intros H. unfold on_message. rewrite H. reflexivity. Qed.

Lemma on_message_outside_guild message (c : config E) :
message_guild message = None -> on_message message c = (Done tt, c).
Proof.
intros H. unfold on_message. rewrite H.
destruct (user_bot (message_author message)); reflexivity.
Qed.

(** C9: a message written by a bot account, or received outside a guild,
    leaves the configuration as it is: no call is issued, no window is
    touched, nothing is raised. *)
Theorem on_message_ignores_bots_and_dms message (c : config E) :
user_bot (message_author message) = true \/ message_guild message = None ->
let c' := snd (on_message message c) in
fst (on_message message c) = Done tt
/\ bot c' = bot c /\ trace c' = trace c /\ env c' = env c.
Proof.
intros [H | H]; cbv zeta.
- rewrite (on_message_of_bot _ _ H). auto.
- rewrite (on_message_outside_guild _ _ H). auto.
Qed.

Lemma on_message_no_invite message (c : config E) :
  Regex.search INVITE_REGEX (message_content message) = false ->
  on_message message c = (Done tt, c).
Proof.
  intros H. unfold on_message. rewrite H.
  destruct (user_bot (message_author message)), (message_guild message);
    reflexivity.
Qed.

(** C4: the enforcement of [on_message] issues the timeout first.  When the
    timeout succeeds nothing else is issued.  When it fails with
    [Forbidden] or another [HTTPException], [safe_kick] is run next: it
    issues the kick if the member is still in the cache, and whether the
    kick succeeds or fails with an [HTTPException], the enforcement returns
    normally. *)
Theorem timeout_first_then_kick message guild m (c : config E) :
  get_member (env c) guild (user_id (message_author message)) = Some m ->
  let until := utcnow (env c) + TIMEOUT_DURATION in
  let r := member_edit m until invite_spam_reason (env c) in
  let c1 := issued c (Timeout m until invite_spam_reason) (snd r) in
  let run := invite_spam_enforcement message guild c in
  match fst r with
  | Done _ => run = (Done tt, c1)
  | Raised x =>
      is_HTTPException x = true ->
      run = safe_kick guild (Some m) invite_spam_reason c1
      /\ match get_member (snd r) guild (member_id m) with
         | Some _ =>
             let k := guild_kick guild m invite_spam_reason (snd r) in
             snd run = issued c1 (Kick guild m invite_spam_reason) (snd k)
             /\ (absorbed (fst k) -> fst run = Done tt)
         | None => run = (Done tt, c1)
         end
  end.
Proof.
  intros Hm. cbv zeta.
  rewrite invite_spam_enforcement_run, Hm, try_timeout_run. cbv zeta.
  destruct (member_edit _ _ _ _) as [[[]|x] e'] eqn:Hedit; simpl; [reflexivity |].
  intros Hx.
  destruct x; try discriminate Hx; simpl;
    (split; [reflexivity |]);
    rewrite safe_kick_run; simpl;
    (destruct (get_member e' guild (member_id m)); [| reflexivity]);
    simpl; (split; [reflexivity |]);
    destruct (guild_kick _ _ _ _) as [[[]|[]] e'']; simpl; congruence.
Qed.

End MessageProperties.

Section MembershipCheck.
Context {E : Type} {P : Platform E}.

Lemma safe_kick_trace guild m reason (c : config E) :
  exists evs,
    trace (snd (safe_kick guild (Some m) reason c)) = trace c ++ evs
    /\ Forall (fun ev => snd ev = Kick guild m reason
                         /\ is_Some (get_member (fst ev) guild (member_id m))) evs
    /\ (get_member (env c) guild (member_id m) = None -> evs = []).
Proof.
  rewrite safe_kick_run.
  destruct (get_member (env c) guild (member_id m)) as [m'|] eqn:Hm.
  - exists [(env c, Kick guild m reason)]. simpl. split; [reflexivity |].
    split; [| discriminate].
    constructor; [| constructor]. simpl. rewrite Hm. eauto.
  - exists []. simpl. rewrite app_nil_r. auto.
Qed.

Lemma on_message_trace message (c : config E) :
  exists evs,
    trace (snd (on_message message c)) = trace c ++ evs
    /\ Forall (on_current_member message) evs.
Proof.
  destruct (user_bot (message_author message)) eqn:Hbot.
  { rewrite on_message_of_bot by exact Hbot.
    exists []. simpl. rewrite app_nil_r. auto. }
  destruct (message_guild message) as [guild|] eqn:Hguild.
  2:{ rewrite on_message_outside_guild by exact Hguild.
      exists []. simpl. rewrite app_nil_r. auto. }
  destruct (Regex.search INVITE_REGEX (message_content message)) eqn:Hre.
  2:{ rewrite on_message_no_invite by auto.
      exists []. simpl. rewrite app_nil_r. auto. }
  rewrite (on_message_run _ _ _ Hbot Hguild Hre). cbv zeta.
  assert (Hdel : on_current_member message (env c, Delete message)) by exact I.
  assert (Hidle : forall r : outcome unit,
             exists evs,
               trace (snd (r, issued c (Delete message)
                                (snd (message_delete message (env c)))))
               = trace c ++ evs
               /\ Forall (on_current_member message) evs).
  { intros r. exists [(env c, Delete message)]. simpl. auto. }
  assert (Hmain :
            exists evs,
              trace (snd (if is_whitelisted (user_id (message_author message))
                          then (Done tt, issued c (Delete message)
                                           (snd (message_delete message (env c))))
                          else if is_over_threshold
                                    (record_post
                                       (default [] (invite_events (bot c)
                                                      !! user_id (message_author message)))
                                       (utcnow (snd (message_delete message (env c)))))
                               then invite_spam_enforcement message guild (posted message c)
                               else (Done tt, posted message c)))
              = trace c ++ evs
              /\ Forall (on_current_member message) evs).
  { destruct (is_whitelisted _); [apply Hidle |].
    destruct (is_over_threshold _).
    2:{ exists [(env c, Delete message)]. simpl. auto. }
    rewrite invite_spam_enforcement_run.
    destruct (get_member (env (posted message c)) guild
                         (user_id (message_author message))) as [m|] eqn:Hm.
    2:{ exists [(env c, Delete message)]. simpl. auto. }
    rewrite try_timeout_run. cbv zeta.
    set (until := utcnow (env (posted message c)) + TIMEOUT_DURATION).
    assert (Htime : on_current_member message
                      (env (posted message c), Timeout m until invite_spam_reason)).
    { simpl. exists guild. auto. }
    destruct (member_edit m until invite_spam_reason (env (posted message c)))
      as [[[]|x] e'] eqn:Hedit; simpl.
    { eexists. rewrite <- app_assoc. simpl. split; [reflexivity |]. auto. }
    assert (Hkick :
              exists evs,
                trace (snd (safe_kick guild (Some m) invite_spam_reason
                              (issued (posted message c)
                                      (Timeout m until invite_spam_reason) e')))
                = trace c ++ evs
                /\ Forall (on_current_member message) evs).
    { destruct (safe_kick_trace guild m invite_spam_reason
                  (issued (posted message c) (Timeout m until invite_spam_reason) e'))
        as (evs & -> & Hevs & _).
      simpl. rewrite <- !app_assoc. simpl. eexists. split; [reflexivity |].
      repeat (constructor; [assumption |]).
      eapply Forall_impl; [exact Hevs |].
      intros [e call] [Hcall Hsome]. simpl in *. subst call. exact Hsome. }
    destruct x; simpl; try exact Hkick.
    eexists. rewrite <- app_assoc. simpl. split; [reflexivity |]. auto. }
  destruct (fst (message_delete message (env c))) as [[]|[]];
    try exact Hmain. apply Hidle.
Qed.

Lemma checked_ret {A} (a : A) : checked (E := E) (ret a).
Proof. intros c. exists []. simpl. rewrite app_nil_r. auto. Qed.

Lemma checked_throw {A} x : checked (E := E) (throw (A := A) x).
Proof. intros c. exists []. simpl. rewrite app_nil_r. auto. Qed.

Lemma checked_ask {A} (f : E -> A) : checked (ask f).
Proof. intros c. exists []. simpl. rewrite app_nil_r. auto. Qed.

Lemma checked_gets {A} (f : State -> A) : checked (E := E) (gets f).
Proof. intros c. exists []. simpl. rewrite app_nil_r. auto. Qed.

Lemma checked_modify f : checked (E := E) (modify f).
Proof. intros c. exists []. simpl. rewrite app_nil_r. auto. Qed.

Lemma checked_await {A} what (run : E -> outcome A * E) :
(forall e, targets_cached_member (e, what)) -> checked (await what run).
Proof.
intros Hwhat c. exists [(env c, what)]. unfold await.
destruct (run (env c)) as [r e']. simpl. auto.
Qed.

Lemma checked_bind {A B} (m : M E A) (k : A -> M E B) :
checked m -> (forall a, checked (k a)) -> checked (bind m k).
Proof.
intros Hm Hk c. unfold bind. destruct (Hm c) as (evs & Htr & Hevs).
destruct (m c) as [[a|x] c1]; simpl in *.
- destruct (Hk a c1) as (evs' & Htr' & Hevs').
  exists (evs ++ evs'). rewrite Htr', Htr, app_assoc. split; [reflexivity |].
  apply Forall_app. auto.
- eauto.
Qed.

Lemma checked_catch {A} (m : M E A) (h : exn -> M E A) :
checked m -> (forall x, checked (h x)) -> checked (catch m h).
Proof.
intros Hm Hh c. unfold catch. destruct (Hm c) as (evs & Htr & Hevs).
destruct (m c) as [[a|x] c1]; simpl in *.
- eauto.
- destruct (Hh x c1) as (evs' & Htr' & Hevs').
  exists (evs ++ evs'). rewrite Htr', Htr, app_assoc. split; [reflexivity |].
  apply Forall_app. auto.
Qed.

Lemma checked_safe_kick guild member reason : checked (safe_kick guild member reason).
Proof.
destruct member as [m|].
- intros c. destruct (safe_kick_trace guild m reason c) as (evs & Htr & Hevs & _).
  exists evs. split; [exact Htr |].
  eapply Forall_impl; [exact Hevs |].
  intros [e what] [Hwhat Hsome]. simpl in *. subst what. exact Hsome.
- intros c. exists []. simpl. rewrite app_nil_r. auto.
Qed.

Lemma checked_on_message message : checked (on_message message).
Proof.
intros c. destruct (on_message_trace message c) as (evs & Htr & Hevs).
exists evs. split; [exact Htr |].
eapply Forall_impl; [exact Hevs |].
intros [e what]. unfold on_current_member, targets_cached_member. simpl.
destruct what; auto. intros (guild & _ & Hm). eauto.
Qed.

(** Steps through a handler built from the combinators above. *)
Ltac checked_step :=
  first
    [ apply checked_ret | apply checked_throw | apply checked_ask
    | apply checked_gets | apply checked_modify | apply checked_safe_kick
    | apply checked_await; intros ?; exact I
    | apply checked_bind; [| intros ?]
    | apply checked_catch; [| intros ?]
    | match goal with
      | |- checked (match ?x with _ => _ end) => destruct x
      | |- checked (if ?x then _ else _) => destruct x
      end ].

Lemma checked_find_audit_actor guild action target_id within_seconds :
checked (find_audit_actor guild action target_id within_seconds).
Proof. unfold find_audit_actor, fetch_audit_logs, asyncio_sleep. repeat checked_step. Qed.

Lemma checked_search_channels tid chs : checked (search_channels tid chs).
Proof.
induction chs as [|ch rest IH]; simpl; [apply checked_ret |].
repeat (exact IH || checked_step).
Qed.

Lemma checked_for_each {A} (l : list A) (body : A -> M E unit) :
(forall a, checked (body a)) -> checked (for_each l body).
Proof.
intros Hbody. induction l as [|a l IH]; simpl; [apply checked_ret |].
apply checked_bind; [apply Hbody | intros _; exact IH].
Qed.

Lemma checked_webhook_entry channel entry : checked (webhook_entry channel entry).
Proof.
unfold webhook_entry, delete_webhook, count_attempt.
repeat (apply checked_search_channels || checked_step).
Qed.

(** C3: every kick and every timeout is issued in a platform state whose
    member cache holds the target, looked up in that very state.  [safe_kick]
    makes the lookup itself and issues nothing when it fails.  For the
    timeout the lookup is [message.guild.get_member], which [on_message]
    makes right before it calls [try_timeout], with no await in between; the
    kick that follows a failed timeout is checked again by [safe_kick].  All
    other handlers kick through [safe_kick] only. *)
Theorem kicks_and_timeouts_hit_cached_members :
(forall guild m reason (c : config E),
    exists evs,
      trace (snd (safe_kick guild (Some m) reason c)) = trace c ++ evs
      /\ Forall (fun ev => snd ev = Kick guild m reason
                           /\ is_Some (get_member (fst ev) guild (member_id m))) evs
      /\ (get_member (env c) guild (member_id m) = None -> evs = []))
/\ (forall message (c : config E),
       exists evs,
         trace (snd (on_message message c)) = trace c ++ evs
         /\ Forall (on_current_member message) evs)
/\ (forall message, checked (on_message message))
/\ (forall member, checked (on_member_join member))
/\ (forall channel, checked (on_guild_channel_delete channel))
/\ (forall role, checked (on_guild_role_delete role))
/\ (forall guild user, checked (on_member_ban guild user))
/\ (forall member, checked (on_member_remove member))
/\ (forall channel, checked (on_webhooks_update channel)).
Proof.
split; [apply safe_kick_trace |].
split; [apply on_message_trace |].
split; [apply checked_on_message |].
split.
{ intros member. unfold on_member_join, asyncio_sleep.
  repeat (apply checked_find_audit_actor || checked_step). }
split.
{ intros channel. unfold on_guild_channel_delete, asyncio_sleep.
  repeat (apply checked_find_audit_actor || checked_step). }
split.
{ intros role. unfold on_guild_role_delete, asyncio_sleep.
  repeat (apply checked_find_audit_actor || checked_step). }
split.
{ intros guild user. unfold on_member_ban, asyncio_sleep.
  repeat (apply checked_find_audit_actor || checked_step). }
split.
{ intros member. unfold on_member_remove, asyncio_sleep. cbv zeta.
  repeat (apply checked_find_audit_actor || checked_step). }
intros channel. unfold on_webhooks_update, fetch_audit_logs, asyncio_sleep. cbv zeta.
repeat ((apply checked_for_each; intros ?) || apply checked_webhook_entry || checked_step).
Qed.

End MembershipCheck.

(** ** Audit attribution *)

Section Attribution.
Context {E : Type} {P : Platform E}.

Lemma find_audit_actor_run guild action target_id within_seconds (c : config E) :
  find_audit_actor guild action target_id within_seconds c =
  let c0 := throttled guild action target_id c in
  let r := audit_logs guild 8 action (env c0) in
  (match fst r with
   | Done entries =>
       Done (scan_entries (utcnow (env c)) target_id within_seconds (take 8 entries))
   | Raised OtherError => Raised OtherError
   | Raised _ => Done None
   end,
   issued c0 (AuditLogs guild 8 action) (snd r)).
Proof.
  unfold find_audit_actor, throttled, fetch_audit_logs, asyncio_sleep,
    catch, bind, await, ask, gets, modify, ret, throw.
  simpl.
  destruct (last_audit_lookup (bot c) !! _) as [t|]; simpl.
  - destruct (seconds_lt (utcnow (env c)) t 1); simpl;
      destruct (audit_logs guild 8 action _) as [[entries|[]] e']; reflexivity.
  - destruct (audit_logs guild 8 action _) as [[entries|[]] e']; reflexivity.
Qed.

Lemma scan_entries_found now target_id within_seconds entries actor :
  scan_entries now target_id within_seconds entries = Some actor ->
  exists entry,
    entry ∈ entries
    /\ entry_user entry = Some actor
    /\ entry_skipped now target_id within_seconds entry = false.
Proof.
  induction entries as [|entry rest IH]; simpl; [discriminate |].
  destruct (entry_skipped now target_id within_seconds entry) eqn:Hskip.
  - intros H. destruct (IH H) as (e & Hin & He). exists e.
    split; [right; exact Hin | exact He].
  - intros H. exists entry. split; [left | auto].
Qed.

Lemma scan_entries_skips_old now target_id within_seconds entries :
  scan_entries now target_id within_seconds entries
  = scan_entries now target_id within_seconds
      (List.filter (fun entry => negb (too_old now within_seconds entry)) entries).
Proof.
  induction entries as [|entry rest IH]; simpl; [reflexivity |].
  unfold entry_skipped.
  destruct (too_old now within_seconds entry) eqn:Hold; simpl.
  - exact IH.
  - unfold entry_skipped. rewrite Hold. simpl.
    destruct target_id as [tid|]; [| reflexivity].
    destruct (negb _); [exact IH | reflexivity].
Qed.

Lemma scan_entries_none now target_id within_seconds entries :
  Forall (fun entry => entry_skipped now target_id within_seconds entry = true) entries ->
  scan_entries now target_id within_seconds entries = None.
Proof.
  induction 1 as [|entry rest Hskip _ IH]; simpl; [reflexivity |].
  rewrite Hskip. exact IH.
Qed.

(** C5: the actor [find_audit_actor] returns is the user of a record of the
    page that is not older than [within_seconds] at the time [now] the
    function read on entry (and that has the requested target); records
    older than that are skipped, so the result is the one for the page
    without them; the result is [None] when every record of the page is
    too old or has another target, and when the directory call raises an
    [HTTPException]. *)
Theorem stale_records_are_never_attributed
        guild action target_id within_seconds (c : config E) :
  let now := utcnow (env c) in
  let r := audit_logs guild 8 action (env (throttled guild action target_id c)) in
  let result := fst (find_audit_actor guild action target_id within_seconds c) in
  match fst r with
  | Done entries =>
      (forall actor,
          result = Done (Some actor) ->
          exists entry,
            entry ∈ take 8 entries
            /\ entry_user entry = Some actor
            /\ (forall t, entry_created_at entry = Some t
                          -> now - t <= within_seconds * second)
            /\ (forall tid, target_id = Some tid
                            -> getattr_id (entry_target entry) = Some tid))
      /\ result
         = Done (scan_entries now target_id within_seconds
                   (List.filter (fun entry => negb (too_old now within_seconds entry))
                                (take 8 entries)))
      /\ (Forall (fun entry => entry_skipped now target_id within_seconds entry = true)
                 (take 8 entries)
          -> result = Done None)
  | Raised x => is_HTTPException x = true -> result = Done None
  end.
Proof.
  cbv zeta. rewrite find_audit_actor_run. cbv zeta.
  destruct (audit_logs guild 8 action _) as [[entries|x] e']; simpl.
  - split; [| split].
    + intros actor [= H].
      destruct (scan_entries_found _ _ _ _ _ H) as (entry & Hin & Huser & Hskip).
      exists entry. split; [exact Hin |]. split; [exact Huser |].
      unfold entry_skipped in Hskip. apply orb_false_iff in Hskip as [Hold Htgt].
      split.
      * intros t Ht. unfold too_old in Hold. rewrite Ht in Hold.
        unfold seconds_gt in Hold. apply Z.ltb_ge in Hold. exact Hold.
      * intros tid ->. apply negb_false_iff, bool_decide_eq_true in Htgt.
        exact Htgt.
    + f_equal. apply scan_entries_skips_old.
    + intros Hall. f_equal. apply scan_entries_none, Hall.
  - destruct x; intros Hx; try reflexivity. discriminate.
Qed.

End Attribution.

(** ** The audit lookup throttle *)

Section Throttle.
Context {E : Type} {P : Platform E}.

(** C7, as the code has it: the throttle records the time a lookup
    starts, before any sleep.  On a platform where [asyncio.sleep(n)] lets
    at least [n] seconds pass, a lookup that finds the time [t] recorded for
    its key, [t] not in the future, issues its query at least one second
    after [t], and records its own starting time. *)
Theorem query_waits_for_recorded_lookup
        guild action target_id within_seconds (c : config E) (t : Z) :
  (forall n e, utcnow e + n * second <= utcnow (sleep n e)) ->
  last_audit_lookup (bot c) !! (guild_id guild, (action, target_id)) = Some t ->
  t <= utcnow (env c) ->
  let c0 := throttled guild action target_id c in
  let c' := snd (find_audit_actor guild action target_id within_seconds c) in
  trace c' = trace c0 ++ [(env c0, AuditLogs guild 8 action)]
  /\ t + 1 * second <= utcnow (env c0)
  /\ last_audit_lookup (bot c') !! (guild_id guild, (action, target_id))
     = Some (utcnow (env c)).
Proof.
  intros Hsleep Hlast Hpast. cbv zeta.
  rewrite find_audit_actor_run. cbv zeta. simpl.
  split; [reflexivity |]. unfold throttled. cbv zeta. rewrite Hlast.
  destruct (seconds_lt (utcnow (env c)) t 1) eqn:Hlt; simpl.
  - split; [| apply lookup_insert_eq].
    specialize (Hsleep 1 (env c)). lia.
  - split; [| apply lookup_insert_eq].
    unfold seconds_lt in Hlt. apply Z.ltb_ge in Hlt. lia.
Qed.

End Throttle.

(** C7, as stated, fails: the second lookup sleeps and queries at 1.5 s but
    leaves 0.5 s, its starting time, in the throttle; the third lookup starts
    at 1.6 s, finds 1.1 s elapsed, and queries at once, 0.1 s after the
    second query. *)
Lemma queries_a_tenth_of_a_second_apart :
Sim.calls Sim.three_lookups
= [AuditLogs Sim.the_guild 8 AuditLogAction.kick;
   Sleep 1;
   AuditLogs Sim.the_guild 8 AuditLogAction.kick;
   AuditLogs Sim.the_guild 8 AuditLogAction.kick]
/\ Sim.query_times Sim.three_lookups = [0; 1500000; 1600000]
/\ 1600000 - 1500000 < 1 * second.
Proof. vm_compute. repeat split; reflexivity. Qed.

Lemma query_waits_for_recorded_lookup_witness :
let c := Sim.later 500000 (Sim.lookup (Sim.start Sim.world0)) in
let c0 := throttled (P := Sim.platform Sim.no_faults) Sim.the_guild
            AuditLogAction.kick (Some 100) c in
0 + 1 * second <= Sim.clock (env c0).
Proof.
intros c c0.
refine (proj1 (proj2 (query_waits_for_recorded_lookup
                        (P := Sim.platform Sim.no_faults) Sim.the_guild
                        AuditLogAction.kick (Some 100) WITHIN_SECONDS c 0 _ _ _))).
- intros n e. simpl. lia.
- vm_compute. reflexivity.
- vm_compute. discriminate.
Defined.

(** ** The trust registry *)

Section Trust.
Context {E : Type} {P : Platform E}.

Lemma asyncio_sleep_run n (c : config E) :
asyncio_sleep n c = (Done tt, issued c (Sleep n) (sleep n (env c))).
Proof. reflexivity. Qed.

Lemma on_message_trusted message (c : config E) :
is_whitelisted (user_id (message_author message)) = true ->
bot (snd (on_message message c)) = bot c
/\ (trace (snd (on_message message c)) = trace c
    \/ trace (snd (on_message message c)) = trace c ++ [(env c, Delete message)]).
Proof.
intros Htrust.
destruct (user_bot (message_author message)) eqn:Hbot.
{ rewrite on_message_of_bot by exact Hbot. auto. }
destruct (message_guild message) as [guild|] eqn:Hguild.
2:{ rewrite on_message_outside_guild by exact Hguild. auto. }
destruct (Regex.search INVITE_REGEX (message_content message)) eqn:Hre.
2:{ rewrite on_message_no_invite by auto. auto. }
rewrite (on_message_run _ _ _ Hbot Hguild Hre). cbv zeta. rewrite Htrust.
destruct (fst (message_delete message (env c))) as [[]|[]]; simpl; auto.
Qed.

(** What is left of an audit handler when the actor is absent or trusted. *)
Ltac handler_stops :=
  intros Hres Htrust;
  unfold attributed in *; unfold bind; rewrite asyncio_sleep_run in *; simpl in *;
  match goal with
  | |- context [find_audit_actor ?g ?a ?t ?w ?c] =>
      destruct (find_audit_actor g a t w c) as [[[actor|]|x] c'] eqn:Hrun;
      simpl in *; try discriminate
  end;
  injection Hres as ->; rewrite Htrust; reflexivity.

(** C1, as the code has it: a trusted author is never recorded, timed out or
    kicked by [on_message], whose only call for such a message is the
    deletion of the invite link, which comes before the whitelist test; an
    audit handler whose lookup names a trusted actor issues nothing after the
    lookup; a webhook record of a trusted actor is passed over. *)
Theorem trusted_accounts_are_not_penalised :
(forall message (c : config E),
    is_whitelisted (user_id (message_author message)) = true ->
    bot (snd (on_message message c)) = bot c
    /\ (trace (snd (on_message message c)) = trace c
        \/ trace (snd (on_message message c)) = trace c ++ [(env c, Delete message)]))
/\ (forall member (c : config E) a,
       member_bot member = true ->
       fst (attributed (member_guild member) AuditLogAction.bot_add
                       (member_id member) c) = Done (Some a) ->
       is_whitelisted (user_id a) = true ->
       on_member_join member c
       = (Done tt, snd (attributed (member_guild member) AuditLogAction.bot_add
                                   (member_id member) c)))
/\ (forall channel (c : config E) a,
       fst (attributed (channel_guild channel) AuditLogAction.channel_delete
                       (channel_id channel) c) = Done (Some a) ->
       is_whitelisted (user_id a) = true ->
       on_guild_channel_delete channel c
       = (Done tt, snd (attributed (channel_guild channel)
                                   AuditLogAction.channel_delete
                                   (channel_id channel) c)))
/\ (forall role (c : config E) a,
       fst (attributed (role_guild role) AuditLogAction.role_delete
                       (role_id role) c) = Done (Some a) ->
       is_whitelisted (user_id a) = true ->
       on_guild_role_delete role c
       = (Done tt, snd (attributed (role_guild role) AuditLogAction.role_delete
                                   (role_id role) c)))
/\ (forall guild user (c : config E) a,
       fst (attributed guild AuditLogAction.ban (user_id user) c) = Done (Some a) ->
       is_whitelisted (user_id a) = true ->
       on_member_ban guild user c
       = (Done tt, snd (attributed guild AuditLogAction.ban (user_id user) c)))
/\ (forall member (c : config E) a,
       fst (attributed (member_guild member) AuditLogAction.kick
                       (member_id member) c) = Done (Some a) ->
       is_whitelisted (user_id a) = true ->
       on_member_remove member c
       = (Done tt, snd (attributed (member_guild member) AuditLogAction.kick
                                   (member_id member) c)))
/\ (forall channel entry (c : config E) a,
       entry_user entry = Some a ->
       is_whitelisted (user_id a) = true ->
       webhook_entry channel entry c = (Done tt, c)).
Proof.
split; [exact on_message_trusted |].
split.
{ intros member c a Hbot. unfold on_member_join. rewrite Hbot. handler_stops. }
split.
{ intros channel c a. unfold on_guild_channel_delete. handler_stops. }
split.
{ intros role c a. unfold on_guild_role_delete. handler_stops. }
split.
{ intros guild user c a. unfold on_member_ban. handler_stops. }
split.
{ intros member c a. unfold on_member_remove. cbv zeta. handler_stops. }
intros channel entry c a Huser Htrust.
unfold webhook_entry, bind, ask, ret. simpl. rewrite Huser.
destruct (too_old _ _ _); [reflexivity |].
destruct (entry_target entry); [| reflexivity].
rewrite Htrust. reflexivity.
Qed.

End Trust.

(** C1, as stated, fails: the invite link of a whitelisted author is
    deleted. *)
Lemma invite_of_trusted_author_is_deleted :
is_whitelisted (user_id (message_author (Sim.invite 1 Sim.admin_user))) = true
/\ Sim.calls (snd (on_message (P := Sim.platform Sim.no_faults)
                     (Sim.invite 1 Sim.admin_user) (Sim.start Sim.world0)))
   = [Delete (Sim.invite 1 Sim.admin_user)].
Proof. vm_compute. split; reflexivity. Qed.

(** ** The webhook violation tracker *)

Section Webhooks.
Context {E : Type} {P : Platform E}.

Lemma attempts_insert actor n (c : config E) :
attempts actor {| bot := set_webhook_attempts <[user_id actor := n]> (bot c);
                  env := env c; trace := trace c |} = n.
Proof. unfold attempts. simpl. rewrite lookup_insert_eq. reflexivity. Qed.

Lemma count_attempt_below guild actor (c : config E) :
(WEBHOOK_MAX_ATTEMPTS <=? attempts actor c + 1) = false ->
let c' := snd (count_attempt guild actor c) in
fst (count_attempt guild actor c) = Done tt
/\ attempts actor c' = attempts actor c + 1
/\ trace c' = trace c
/\ env c' = env c.
Proof.
intros Hlow. cbv zeta.
unfold count_attempt, bind, modify, gets, ask, ret. simpl.
rewrite lookup_insert_eq. simpl. fold (attempts actor c). rewrite Hlow. simpl.
unfold attempts at 1. simpl. rewrite lookup_insert_eq. auto.
Qed.

Lemma count_attempt_threshold guild actor (c : config E) :
(WEBHOOK_MAX_ATTEMPTS <=? attempts actor c + 1) = true ->
let c' := snd (count_attempt guild actor c) in
match get_member (env c) guild (user_id actor) with
| Some m =>
    let k := guild_kick guild m webhook_kick_reason (env c) in
    (is_Some (get_member (env c) guild (member_id m))
     -> trace c' = trace c ++ [(env c, Kick guild m webhook_kick_reason)]
        /\ (absorbed (fst k)
            -> fst (count_attempt guild actor c) = Done tt
               /\ attempts actor c' = 0))
    /\ (get_member (env c) guild (member_id m) = None
        -> trace c' = trace c
           /\ fst (count_attempt guild actor c) = Done tt
           /\ attempts actor c' = 0)
| None =>
    trace c' = trace c
    /\ fst (count_attempt guild actor c) = Done tt
    /\ attempts actor c' = 0
end.
Proof.
intros Hhigh. cbv zeta.
unfold count_attempt, bind, modify, gets, ask, ret. simpl.
rewrite lookup_insert_eq. simpl. fold (attempts actor c). rewrite Hhigh. simpl.
destruct (get_member (env c) guild (user_id actor)) as [m|] eqn:Hm.
- rewrite safe_kick_run. simpl. split.
  + intros [m' Hm']. rewrite Hm'. simpl.
    unfold webhook_kick_reason.
    destruct (guild_kick guild m _ (env c)) as [[[]|[]] e']; simpl;
      (split; [reflexivity |]);
      intros Hk; try discriminate Hk;
      (split; [reflexivity |]); unfold attempts; simpl;
      rewrite lookup_insert_eq; reflexivity.
  + intros Hnone. rewrite Hnone. simpl. split; [reflexivity |].
    split; [reflexivity |]. unfold attempts. simpl.
    rewrite lookup_insert_eq. reflexivity.
- simpl. split; [reflexivity |]. split; [reflexivity |].
  unfold attempts. simpl. rewrite lookup_insert_eq. reflexivity.
Qed.

(** C6: from a count of 0, the first two violations of an account bring the
    count to 1 and 2 and issue nothing; the third reaches the threshold, a
    kick of the actor is issued while the cache still holds it, and the count
    is set back to 0; the fourth violation brings the count to 1.  Between
    the violations the configuration may change in any way that keeps the
    count of the account. *)
Theorem third_violation_kicks_and_resets guild actor (c1 c2 c3 c4 : config E) :
let after c := snd (count_attempt guild actor c) in
attempts actor c1 = 0 ->
attempts actor c2 = attempts actor (after c1) ->
attempts actor c3 = attempts actor (after c2) ->
attempts actor c4 = attempts actor (after c3) ->
(forall m, absorbed (fst (guild_kick guild m webhook_kick_reason (env c3)))) ->
(attempts actor (after c1) = 1 /\ trace (after c1) = trace c1)
/\ (attempts actor (after c2) = 2 /\ trace (after c2) = trace c2)
/\ ((WEBHOOK_MAX_ATTEMPTS <=? attempts actor c3 + 1) = true
    /\ attempts actor (after c3) = 0
    /\ match get_member (env c3) guild (user_id actor) with
       | Some m =>
           member_id m = user_id actor ->
           trace (after c3) = trace c3 ++ [(env c3, Kick guild m webhook_kick_reason)]
       | None => trace (after c3) = trace c3
       end)
/\ (attempts actor (after c4) = 1 /\ trace (after c4) = trace c4).
Proof.
intros after H1 H2 H3 H4 Hkick. subst after. cbv beta in *.
destruct (count_attempt_below guild actor c1) as (_ & Ha1 & Ht1 & _).
{ rewrite H1. reflexivity. }
rewrite H1 in Ha1. simpl in Ha1. rewrite Ha1 in H2.
destruct (count_attempt_below guild actor c2) as (_ & Ha2 & Ht2 & _).
{ rewrite H2. reflexivity. }
rewrite H2 in Ha2. simpl in Ha2. rewrite Ha2 in H3.
assert (Hhigh : (WEBHOOK_MAX_ATTEMPTS <=? attempts actor c3 + 1) = true).
{ rewrite H3. reflexivity. }
pose proof (count_attempt_threshold guild actor c3 Hhigh) as H.
cbv zeta in H.
assert (Ha3 : attempts actor (snd (count_attempt guild actor c3)) = 0
              /\ match get_member (env c3) guild (user_id actor) with
                 | Some m =>
                     member_id m = user_id actor ->
                     trace (snd (count_attempt guild actor c3))
                     = trace c3 ++ [(env c3, Kick guild m webhook_kick_reason)]
                 | None => trace (snd (count_attempt guild actor c3)) = trace c3
                 end).
{ destruct (get_member (env c3) guild (user_id actor)) as [m|] eqn:Hm.
  - destruct H as [Hsome Hnone].
    destruct (get_member (env c3) guild (member_id m)) as [m'|] eqn:Hm'.
    + destruct (Hsome (ex_intro _ m' eq_refl)) as [Htr Hrest].
      destruct (Hrest (Hkick m)) as [_ Hzero]. split; [exact Hzero |].
      intros _. exact Htr.
    + destruct (Hnone eq_refl) as (_ & _ & Hzero). split; [exact Hzero |].
      intros Hid. rewrite Hid, Hm in Hm'. discriminate.
  - destruct H as (Htr & _ & Hzero). auto. }
destruct Ha3 as [Ha3 Ht3]. rewrite Ha3 in H4.
destruct (count_attempt_below guild actor c4) as (_ & Ha4 & Ht4 & _).
{ rewrite H4. reflexivity. }
rewrite H4 in Ha4. simpl in Ha4.
repeat split; assumption.
Qed.

End Webhooks.

Section WebhookDeletion.
Context {E : Type} {P : Platform E}.

Lemma quiet_ret {A} (a : A) : quiet (E := E) (ret a).
Proof. intros c. simpl. auto. Qed.

Lemma quiet_ask {A} (f : E -> A) : quiet (ask f).
Proof. intros c. simpl. auto. Qed.

Lemma quiet_await {A} what (run : E -> outcome A * E) :
(forall e, absorbed (fst (run e))) -> quiet (await what run).
Proof.
intros Hrun c. unfold await. specialize (Hrun (env c)).
destruct (run (env c)) as [r e']. simpl in *. auto.
Qed.

Lemma quiet_bind {A B} (m : M E A) (k : A -> M E B) :
quiet m -> (forall a, quiet (k a)) -> quiet (bind m k).
Proof.
intros Hm Hk c. unfold bind. destruct (Hm c) as [Hbot Habs].
destruct (m c) as [[a|x] c1]; simpl in *.
- destruct (Hk a c1) as [Hbot' Habs']. split; [congruence | exact Habs'].
- auto.
Qed.

Lemma quiet_catch {A} (m : M E A) (h : exn -> M E A) :
quiet m -> (forall x, is_HTTPException x = true -> quiet (h x)) -> quiet (catch m h).
Proof.
intros Hm Hh c. unfold catch. destruct (Hm c) as [Hbot Habs].
destruct (m c) as [[a|x] c1]; simpl in *.
- auto.
- destruct (Hh x Habs c1) as [Hbot' Habs']. split; [congruence | exact Habs'].
Qed.

Section Absorbing.
Hypothesis webhooks_fail_http : forall ch e, absorbed (fst (channel_webhooks ch e)).
Hypothesis delete_fails_http : forall w reason e, absorbed (fst (webhook_delete w reason e)).

Lemma search_channels_quiet tid chs : quiet (search_channels tid chs).
Proof.
induction chs as [|ch rest IH]; simpl.
- apply quiet_ret.
- apply quiet_catch.
  + apply quiet_bind; [apply quiet_await, webhooks_fail_http |].
    intros hooks. destruct (find_hook tid hooks); [apply quiet_ret | exact IH].
  + intros x Hx. destruct x; try exact IH; intros c; simpl; auto.
Qed.

Lemma delete_webhook_done channel target_webhook (c : config E) :
fst (delete_webhook channel target_webhook c) = Done tt
/\ bot (snd (delete_webhook channel target_webhook c)) = bot c.
Proof.
unfold delete_webhook. cbv zeta.
match goal with
| |- context [catch ?body ?h] =>
    assert (Hbody : quiet body)
end.
{ apply quiet_bind; [apply quiet_await, webhooks_fail_http |].
  intros hooks. apply quiet_bind.
  - destruct (find_hook _ hooks); [apply quiet_ret |].
    apply quiet_bind; [apply quiet_ask |]. intros chs.
    apply search_channels_quiet.
  - intros [w|]; [apply quiet_await, delete_fails_http | apply quiet_ret]. }
unfold catch. destruct (Hbody c) as [Hbot Habs].
match goal with
| |- context [match ?run with _ => _ end] => destruct run as [[[]|x] c1]
end; simpl in *.
- auto.
- destruct x; simpl in *; auto; discriminate.
Qed.

(** C10: a fresh webhook-create record of an untrusted actor is counted
    whatever becomes of the deletion: when the calls that list and delete
    webhooks fail with nothing but [Forbidden] and other [HTTPException]s,
    [delete_webhook] returns normally without touching the counters and
    [count_attempt] runs next, so the count of the actor goes up by one below
    the threshold and the kick is issued at the threshold. *)
Theorem failed_deletion_still_counts channel entry actor target (c : config E) :
too_old (utcnow (env c)) 30 entry = false ->
entry_user entry = Some actor ->
entry_target entry = Some target ->
is_whitelisted (user_id actor) = false ->
let guild := channel_guild channel in
let d := snd (delete_webhook channel target c) in
let run := webhook_entry channel entry c in
fst (delete_webhook channel target c) = Done tt
/\ attempts actor d = attempts actor c
/\ run = count_attempt guild actor d
/\ ((WEBHOOK_MAX_ATTEMPTS <=? attempts actor c + 1) = false
    -> fst run = Done tt /\ attempts actor (snd run) = attempts actor c + 1)
/\ ((WEBHOOK_MAX_ATTEMPTS <=? attempts actor c + 1) = true
    -> forall m, get_member (env d) guild (user_id actor) = Some m
                 -> member_id m = user_id actor
                 -> trace (snd run) = trace d ++ [(env d, Kick guild m webhook_kick_reason)]).
Proof.
intros Hfresh Huser Htarget Huntrusted. cbv zeta.
destruct (delete_webhook_done channel target c) as [Hdone Hbot].
assert (Hatt : attempts actor (snd (delete_webhook channel target c)) = attempts actor c).
{ unfold attempts. rewrite Hbot. reflexivity. }
assert (Hrun : webhook_entry channel entry c
               = count_attempt (channel_guild channel) actor
                   (snd (delete_webhook channel target c))).
{ unfold webhook_entry, bind, ask. simpl.
  rewrite Hfresh, Huser, Htarget, Huntrusted.
  destruct (delete_webhook channel target c) as [r d]. simpl in *.
  rewrite Hdone. reflexivity. }
split; [exact Hdone |]. split; [exact Hatt |]. split; [exact Hrun |].
rewrite Hrun, <- Hatt. split.
- intros Hlow.
  destruct (count_attempt_below (channel_guild channel) actor _ Hlow)
    as (Hfst & Hcount & _).
  auto.
- intros Hhigh m Hm Hid.
  pose proof (count_attempt_threshold (channel_guild channel) actor _ Hhigh) as H.
  cbv zeta in H.
  rewrite Hm in H. destruct H as [Hsome _].
  apply Hsome. rewrite Hid, Hm. eauto.
Qed.

End Absorbing.

End WebhookDeletion.

(** ** Scenario: a burst of invite links *)

Section Burst.
Context {E : Type} {P : Platform E}.

Lemma purge_keeps now pre s :
s <> [] -> Forall (fun t => in_span now t = true) s ->
exists pre', purge now (pre ++ s) = pre' ++ s.
Proof.
intros Hne Hs. induction pre as [|p pre IH]; simpl.
- exists []. destruct s as [|x s]; [contradiction |]. simpl.
  apply Forall_inv in Hs. unfold in_span in Hs.
  apply negb_true_iff in Hs. rewrite Hs. reflexivity.
- destruct (seconds_gt now p INVITE_WINDOW_SECONDS); [exact IH |].
  exists (p :: pre). reflexivity.
Qed.

Lemma record_post_keeps dq pre ts now :
dq = pre ++ ts ->
Forall (fun t => in_span now t = true) ts ->
(length ts < DEQUE_MAXLEN)%nat ->
exists pre', record_post dq now = pre' ++ ts ++ [now].
Proof.
intros -> Hts Hlen. unfold record_post, deque_append.
assert (Hall : Forall (fun t => in_span now t = true) (ts ++ [now])).
{ apply Forall_app. split; [exact Hts |].
  constructor; [apply in_span_now | constructor]. }
assert (Hne : ts ++ [now] <> []) by (destruct ts; discriminate).
destruct (DEQUE_MAXLEN <=? length (pre ++ ts))%nat eqn:Hfull.
- apply Nat.leb_le in Hfull. rewrite length_app in Hfull.
  destruct pre as [|p pre]; [simpl in Hfull; lia |].
  simpl. rewrite <- app_assoc. apply purge_keeps; assumption.
- rewrite <- app_assoc. apply purge_keeps; assumption.
Qed.

Lemma invite_spam_enforcement_bot message guild (c : config E) :
bot (snd (invite_spam_enforcement message guild c)) = bot c
/\ exists evs, trace (snd (invite_spam_enforcement message guild c)) = trace c ++ evs.
Proof.
rewrite invite_spam_enforcement_run.
destruct (get_member _ _ _) as [m|].
2:{ split; [reflexivity |]. exists []. simpl. rewrite app_nil_r. reflexivity. }
rewrite try_timeout_run. cbv zeta.
destruct (member_edit _ _ _ _) as [[[]|x] e']; simpl.
{ split; [reflexivity |]. eexists. reflexivity. }
assert (Hkick : forall c1 : config E,
           bot (snd (safe_kick guild (Some m) invite_spam_reason c1)) = bot c1
           /\ exists evs, trace (snd (safe_kick guild (Some m) invite_spam_reason c1))
                          = trace c1 ++ evs).
{ intros c1. rewrite safe_kick_run.
  destruct (get_member (env c1) guild (member_id m)); simpl.
  - split; [reflexivity |]. eexists. reflexivity.
  - split; [reflexivity |]. exists []. rewrite app_nil_r. reflexivity. }
destruct x; simpl;
  try (split; [reflexivity |]; eexists; reflexivity);
  match goal with
  | |- context [safe_kick guild (Some m) invite_spam_reason ?c1] =>
      destruct (Hkick c1) as [Hb [evs Ht]]; rewrite Hb, Ht; simpl;
      split; [reflexivity |]; rewrite <- app_assoc; eexists; reflexivity
  end.
Qed.

Lemma window_after_post author guild (run : Message * config E) :
is_whitelisted author = false ->
invite_post author guild run ->
window author (snd (on_message (fst run) (snd run)))
= record_post (window author (snd run)) (post_time run).
Proof.
intros Huntrusted (Hid & Hbot & Hguild & Hre & Habs).
destruct run as [message c]. simpl in *.
rewrite (on_message_run _ _ _ Hbot Hguild Hre). cbv zeta.
rewrite Hid, Huntrusted.
assert (Hposted : window author (posted message c)
                  = record_post (window author c) (post_time (message, c))).
{ unfold window, posted, post_time. simpl. rewrite Hid, lookup_insert_eq.
  reflexivity. }
assert (Hrest : window author
                  (snd (if is_over_threshold
                             (record_post (default [] (invite_events (bot c) !! author))
                                          (utcnow (snd (message_delete message (env c)))))
                        then invite_spam_enforcement message guild (posted message c)
                        else (Done tt, posted message c)))
                = record_post (window author c) (post_time (message, c))).
{ destruct (is_over_threshold _); [| exact Hposted].
  unfold window at 1.
  rewrite (proj1 (invite_spam_enforcement_bot message guild (posted message c))).
  exact Hposted. }
destruct (fst (message_delete message (env c))) as [[]|[]];
  try exact Hrest. contradiction || discriminate.
Qed.

Lemma on_message_deletes author guild (run : Message * config E) :
invite_post author guild run ->
exists rest,
  trace (snd (on_message (fst run) (snd run)))
  = trace (snd run) ++ (env (snd run), Delete (fst run)) :: rest.
Proof.
intros (Hid & Hbot & Hguild & Hre & Habs).
destruct run as [message c]. simpl in *.
rewrite (on_message_run _ _ _ Hbot Hguild Hre). cbv zeta.
assert (Hrest : exists rest,
           trace (snd (if is_whitelisted (user_id (message_author message))
                       then (Done tt, issued c (Delete message)
                                        (snd (message_delete message (env c))))
                       else if is_over_threshold
                                 (record_post
                                    (default [] (invite_events (bot c)
                                                   !! user_id (message_author message)))
                                    (utcnow (snd (message_delete message (env c)))))
                            then invite_spam_enforcement message guild (posted message c)
                            else (Done tt, posted message c)))
           = trace c ++ (env c, Delete message) :: rest).
{ destruct (is_whitelisted _); [exists []; reflexivity |].
  destruct (is_over_threshold _); [| exists []; reflexivity].
  destruct (invite_spam_enforcement_bot message guild (posted message c))
    as [_ [evs ->]].
  exists evs. simpl. rewrite <- app_assoc. reflexivity. }
destruct (fst (message_delete message (env c))) as [[]|[]];
  try exact Hrest. exists []. reflexivity.
Qed.

Lemma within_in_span n ts now t :
n <= INVITE_WINDOW_SECONDS -> within n ts -> t ∈ ts -> now ∈ ts ->
in_span now t = true.
Proof.
intros Hn Hw Ht Hnow. specialize (Hw t now Ht Hnow).
unfold in_span, seconds_gt. rewrite negb_true_iff, Z.ltb_ge.
unfold second in *. nia.
Qed.

Lemma burst_window author guild n :
is_whitelisted author = false ->
n <= INVITE_WINDOW_SECONDS ->
forall rest run ts0 pre,
  window author (snd run) = pre ++ ts0 ->
  Forall (invite_post author guild) (run :: rest) ->
  chained author (run :: rest) ->
  within n (ts0 ++ map post_time (run :: rest)) ->
  (length ts0 + length (run :: rest) <= DEQUE_MAXLEN)%nat ->
  forall last_run,
    last (run :: rest) = Some last_run ->
    exists pre',
      window author (snd (on_message (fst last_run) (snd last_run)))
      = pre' ++ ts0 ++ map post_time (run :: rest).
Proof.
intros Huntrusted Hn.
induction rest as [|run2 rest IH]; intros run ts0 pre Hwin Hposts Hchain Hw Hlen.
- intros last_run [= <-].
  rewrite (window_after_post author guild run Huntrusted (Forall_inv Hposts)).
  apply (record_post_keeps _ pre); [exact Hwin | | simpl in Hlen; lia].
  apply Forall_forall. intros t Ht.
  apply (within_in_span n (ts0 ++ map post_time [run])); auto.
  + apply elem_of_app. left. exact Ht.
  + apply elem_of_app. right. constructor.
- intros last_run Hlast.
  destruct (record_post_keeps (window author (snd run)) pre ts0 (post_time run) Hwin)
    as [pre1 Hstep].
  { apply Forall_forall. intros t Ht.
    apply (within_in_span n (ts0 ++ map post_time (run :: run2 :: rest))); auto.
    - apply elem_of_app. left. exact Ht.
    - apply elem_of_app. right. constructor. }
  { simpl in Hlen. lia. }
  rewrite <- (window_after_post author guild run Huntrusted (Forall_inv Hposts)) in Hstep.
  destruct Hchain as [Hnext Hchain]. rewrite <- Hnext in Hstep.
  destruct (IH run2 (ts0 ++ [post_time run]) pre1) with (last_run := last_run)
    as [pre' Hfinal].
  + rewrite Hstep. reflexivity.
  + apply Forall_inv_tail in Hposts. exact Hposts.
  + exact Hchain.
  + rewrite <- app_assoc. exact Hw.
  + rewrite length_app. simpl in *. lia.
  + exact Hlast.
  + exists pre'. rewrite Hfinal, <- app_assoc. reflexivity.
Qed.

End Burst.

Section ScenarioA.
Context {E : Type} {P : Platform E}.

(** C8: five invite links of one untrusted account, handled one after the
    other, with recorded post times at most 10 seconds apart.  Every handler
    issues the deletion of its message first.  The fifth, when the cache
    holds the author, then issues a timeout until one hour after the post
    time, with the reason [invite_spam_reason], which contains
    "Invite-Spam"; when the timeout succeeds nothing else is issued. *)
Theorem five_invites_in_ten_seconds_time_out
        author guild (runs : list (Message * config E)) last_run member :
is_whitelisted author = false ->
length runs = 5%nat ->
last runs = Some last_run ->
Forall (invite_post author guild) runs ->
chained author runs ->
within 10 (map post_time runs) ->
get_member (env (posted (fst last_run) (snd last_run))) guild author = Some member ->
Forall (fun run =>
          exists rest,
            trace (snd (on_message (fst run) (snd run)))
            = trace (snd run) ++ (env (snd run), Delete (fst run)) :: rest) runs
/\ (let c := posted (fst last_run) (snd last_run) in
    let until := post_time last_run + 3600 * second in
    exists rest,
      trace (snd (on_message (fst last_run) (snd last_run)))
      = trace (snd last_run)
          ++ [(env (snd last_run), Delete (fst last_run));
              (env c, Timeout member until invite_spam_reason)]
          ++ rest
      /\ (fst (member_edit member until invite_spam_reason (env c)) = Done tt
          -> rest = [] /\ fst (on_message (fst last_run) (snd last_run)) = Done tt))
/\ exists pre post,
    invite_spam_reason = String.append pre (String.append "Invite-Spam" post).
Proof.
intros Huntrusted Hlen Hlast Hposts Hchain Hwithin Hmember.
split; [| split].
- eapply Forall_impl; [exact Hposts |]. intros run. apply on_message_deletes.
- assert (Hin : invite_post author guild last_run).
  { eapply Forall_forall; [exact Hposts |].
    apply last_Some_elem_of. exact Hlast. }
  assert (Hover : is_over_threshold
                    (record_post (window author (snd last_run)) (post_time last_run))
                  = true).
  { destruct runs as [|run rest]; [discriminate |].
    destruct (burst_window author guild 10 Huntrusted ltac:(unfold INVITE_WINDOW_SECONDS; lia)
                rest run [] (window author (snd run))) with (last_run := last_run)
      as [pre' Hfinal]; auto.
    - rewrite app_nil_r. reflexivity.
    - simpl in Hlen. unfold DEQUE_MAXLEN. simpl. lia.
    - rewrite (window_after_post author guild last_run Huntrusted Hin) in Hfinal.
      rewrite Hfinal. unfold is_over_threshold. apply Nat.leb_le.
      rewrite !length_app, length_map, Hlen.
      unfold INVITE_MAX_IN_WINDOW. lia. }
  destruct Hin as (Hid & Hbot & Hguild & Hre & Habs).
  destruct last_run as [message c]. cbn [fst snd] in *.
  rewrite (on_message_run _ _ _ Hbot Hguild Hre). cbv zeta.
  rewrite Hid, Huntrusted.
  unfold window, post_time in Hover. simpl in Hover. rewrite Hover.
  assert (Hgoal :
            exists rest,
              trace (snd (invite_spam_enforcement message guild (posted message c)))
              = trace c
                  ++ [(env c, Delete message);
                      (env (posted message c),
                       Timeout member (post_time (message, c) + 3600 * second)
                               invite_spam_reason)]
                  ++ rest
              /\ (fst (member_edit member (post_time (message, c) + 3600 * second)
                                   invite_spam_reason (env (posted message c))) = Done tt
                  -> rest = []
                     /\ fst (invite_spam_enforcement message guild (posted message c))
                        = Done tt)).
  { rewrite invite_spam_enforcement_run. rewrite <- Hid in Hmember.
    rewrite Hmember, try_timeout_run. cbv zeta.
    change (utcnow (env (posted message c)) + TIMEOUT_DURATION)
      with (post_time (message, c) + 3600 * second).
    destruct (member_edit member _ invite_spam_reason (env (posted message c)))
      as [[[]|x] e'] eqn:Hedit; simpl.
    { exists []. rewrite <- app_assoc. simpl. auto. }
    destruct (safe_kick_trace guild member invite_spam_reason
                (issued (posted message c)
                        (Timeout member (post_time (message, c) + 3600 * second)
                                 invite_spam_reason) e'))
      as (evs & Hevs & _).
    destruct x; simpl;
      try (exists evs; rewrite Hevs; simpl; rewrite <- !app_assoc; simpl;
           split; [reflexivity | discriminate]).
    exists []. rewrite <- app_assoc. simpl. split; [reflexivity | discriminate]. }
  destruct (fst (message_delete message (env c))) as [[]|[]];
    try exact Hgoal. contradiction || discriminate.
- exists EmptyString, ": ≥5 in 15s". vm_compute. reflexivity.
Qed.

End ScenarioA.

(** ** The properties at work on the simulated platform *)

Lemma within_check n times :
forallb (fun a => forallb (fun b => b - a <=? n * second) times) times = true ->
within n times.
Proof.
intros H a b Ha Hb.
rewrite forallb_forall in H. apply list_elem_of_In in Ha, Hb.
specialize (H a Ha). rewrite forallb_forall in H.
apply Z.leb_le, H, Hb.
Qed.

Lemma on_message_ignores_bots_and_dms_witness :
let run := on_message (P := Sim.platform Sim.no_faults) (Sim.invite 1 Sim.a_bot)
             (Sim.start Sim.world0) in
fst run = Done tt
/\ bot (snd run) = initial_state /\ trace (snd run) = [] /\ env (snd run) = Sim.world0.
Proof.
apply (on_message_ignores_bots_and_dms (P := Sim.platform Sim.no_faults)
         (Sim.invite 1 Sim.a_bot) (Sim.start Sim.world0)).
left. reflexivity.
Defined.

Lemma timeout_first_then_kick_witness :
let run := invite_spam_enforcement (P := Sim.platform Sim.edit_forbidden)
             (Sim.invite 1 Sim.alice_user) Sim.the_guild (Sim.start Sim.world0) in
fst run = Done tt
/\ Sim.calls (snd run)
   = [Timeout Sim.alice TIMEOUT_DURATION invite_spam_reason;
      Kick Sim.the_guild Sim.alice invite_spam_reason].
Proof.
intros run.
pose proof (timeout_first_then_kick (P := Sim.platform Sim.edit_forbidden)
              (Sim.invite 1 Sim.alice_user) Sim.the_guild Sim.alice
              (Sim.start Sim.world0) eq_refl) as H.
destruct (H eq_refl) as [_ [_ Hdone]].
split; [exact (Hdone I) | reflexivity].
Defined.

Lemma third_violation_kicks_and_resets_witness :
let c1 := Sim.start Sim.world0 in
let c2 := Sim.violate c1 in
let c3 := Sim.violate c2 in
let c4 := Sim.violate c3 in
attempts Sim.alice_user c2 = 1
/\ attempts Sim.alice_user c3 = 2
/\ attempts Sim.alice_user c4 = 0
/\ attempts Sim.alice_user (Sim.violate c4) = 1.
Proof.
intros c1 c2 c3 c4.
destruct (third_violation_kicks_and_resets (P := Sim.platform Sim.no_faults)
            Sim.the_guild Sim.alice_user c1 c2 c3 c4
            eq_refl eq_refl eq_refl eq_refl (fun _ => I))
  as ((H1 & _) & (H2 & _) & (_ & H3 & _) & (H4 & _)).
repeat split; assumption.
Defined.

Lemma failed_deletion_still_counts_witness :
let run := webhook_entry (P := Sim.platform Sim.hooks_forbidden) Sim.general
             Sim.bobs_webhook (Sim.start Sim.world0) in
fst run = Done tt /\ attempts Sim.bob_user (snd run) = 0 + 1.
Proof.
intros run.
destruct (failed_deletion_still_counts (P := Sim.platform Sim.hooks_forbidden)
            (fun _ _ => eq_refl) (fun _ _ _ => I)
            Sim.general Sim.bobs_webhook Sim.bob_user {| target_id := Some 55 |}
            (Sim.start Sim.world0) eq_refl eq_refl eq_refl eq_refl)
  as (_ & _ & _ & Hlow & _).
exact (Hlow eq_refl).
Defined.

Lemma five_invites_in_ten_seconds_time_out_witness :
exists rest,
  trace (snd (on_message (P := Sim.platform Sim.no_faults)
                (fst Sim.burst_last) (snd Sim.burst_last)))
  = trace (snd Sim.burst_last)
      ++ [(env (snd Sim.burst_last), Delete (fst Sim.burst_last));
          (env (posted (P := Sim.platform Sim.no_faults)
                  (fst Sim.burst_last) (snd Sim.burst_last)),
           Timeout Sim.alice
                   (post_time (P := Sim.platform Sim.no_faults) Sim.burst_last
                    + 3600 * second)
                   invite_spam_reason)]
      ++ rest
  /\ (fst (member_edit (Platform := Sim.platform Sim.no_faults) Sim.alice
             (post_time (P := Sim.platform Sim.no_faults) Sim.burst_last
              + 3600 * second)
             invite_spam_reason
             (env (posted (P := Sim.platform Sim.no_faults)
                     (fst Sim.burst_last) (snd Sim.burst_last)))) = Done tt
      -> rest = []
         /\ fst (on_message (P := Sim.platform Sim.no_faults)
                   (fst Sim.burst_last) (snd Sim.burst_last)) = Done tt).
Proof.
refine (proj1 (proj2 (five_invites_in_ten_seconds_time_out
                        (P := Sim.platform Sim.no_faults)
                        100 Sim.the_guild Sim.burst Sim.burst_last Sim.alice
                        _ _ _ _ _ _ _))).
- vm_compute. reflexivity.
- reflexivity.
- vm_compute. reflexivity.
- repeat constructor; vm_compute; reflexivity.
- vm_compute. repeat split; reflexivity.
- apply within_check. vm_compute. reflexivity.
- vm_compute. reflexivity.
Defined.

Example burst_calls :
Sim.calls (Sim.post 5 (snd Sim.burst_last))
= [Delete (Sim.invite 1 Sim.alice_user); Delete (Sim.invite 2 Sim.alice_user);
   Delete (Sim.invite 3 Sim.alice_user); Delete (Sim.invite 4 Sim.alice_user);
   Delete (Sim.invite 5 Sim.alice_user);
   Timeout Sim.alice (4 * second + 3600 * second) "Invite-Spam: ≥5 in 15s"].
Proof. vm_compute. reflexivity. Qed.

(** [try_timeout] has no membership check of its own: called on its own for
    an account the cache does not hold, it issues the call. *)
Example try_timeout_alone_does_not_check :
get_member (Platform := Sim.platform Sim.no_faults) Sim.world0 Sim.the_guild 200 = None
/\ Sim.calls (snd (try_timeout (P := Sim.platform Sim.no_faults) Sim.bob
                     TIMEOUT_DURATION "x" (Sim.start Sim.world0)))
   = [Timeout Sim.bob TIMEOUT_DURATION "x"].
Proof. vm_compute. split; reflexivity. Qed.

(** A kick of an account that has left is not issued. *)
Example safe_kick_of_departed_member :
safe_kick (P := Sim.platform Sim.no_faults) Sim.the_guild (Some Sim.bob) "x"
          (Sim.start Sim.world0)
= (Done tt, Sim.start Sim.world0).
Proof. reflexivity. Qed.

(** A record 20 s old is attributed, a record one microsecond older is
    not. *)
Example attribution_at_the_bound :
map (fun t =>
       fst (find_audit_actor (P := Sim.platform Sim.no_faults) Sim.the_guild
              AuditLogAction.channel_delete (Some 7) WITHIN_SECONDS
              (Sim.start (Sim.world_with_audit (30 * second)
                            [Sim.record_at t Sim.bob_user 7]))))
    [10 * second; 10 * second - 1]
= [Done (Some Sim.bob_user); Done None].
Proof. vm_compute. reflexivity. Qed.

(** The newest fresh record for the target wins; fresher records for other
    targets and stale records for this one are passed over. *)
Example attribution_scans_in_order :
fst (find_audit_actor (P := Sim.platform Sim.no_faults) Sim.the_guild
       AuditLogAction.channel_delete (Some 7) WITHIN_SECONDS
       (Sim.start (Sim.world_with_audit (30 * second)
                     [Sim.record_at (29 * second) Sim.admin_user 8;
                      Sim.record_at (28 * second) Sim.bob_user 7;
                      Sim.record_at (27 * second) Sim.alice_user 7])))
= Done (Some Sim.bob_user).
Proof. vm_compute. reflexivity. Qed.

(** A channel deleted by alice: she is kicked.  Deleted by a whitelisted
    account: nothing follows the lookup. *)
Example channel_delete_by_untrusted_and_trusted :
map (fun actor =>
       Sim.calls (snd (on_guild_channel_delete (P := Sim.platform Sim.no_faults)
                         Sim.general
                         (Sim.start (Sim.world_with_audit (5 * second)
                                       [Sim.record_at (5 * second) actor 7])))))
    [Sim.alice_user; Sim.admin_user]
= [[Sleep 1; AuditLogs Sim.the_guild 8 AuditLogAction.channel_delete;
    Kick Sim.the_guild Sim.alice "Kanal gelöscht ohne Whitelist"];
   [Sleep 1; AuditLogs Sim.the_guild 8 AuditLogAction.channel_delete]].
Proof. vm_compute. reflexivity. Qed.

(** Three webhook updates that each find the record of alice: the webhook
    is deleted each time, and the third update kicks her. *)
Example three_webhook_updates :
let update c := snd (on_webhooks_update (P := Sim.platform Sim.no_faults)
                       Sim.general c) in
let c0 := Sim.start (Sim.world_with_audit 0
                       [Sim.record_at 0 Sim.alice_user 55]) in
Sim.calls (update (update (update c0)))
= [Sleep 1; AuditLogs Sim.the_guild 6 AuditLogAction.webhook_create;
   Webhooks Sim.general;
   WebhookDelete Sim.hook "Webhook von nicht-whitelistetem Nutzer";
   Sleep 1; AuditLogs Sim.the_guild 6 AuditLogAction.webhook_create;
   Webhooks Sim.general;
   WebhookDelete Sim.hook "Webhook von nicht-whitelistetem Nutzer";
   Sleep 1; AuditLogs Sim.the_guild 6 AuditLogAction.webhook_create;
   Webhooks Sim.general;
   WebhookDelete Sim.hook "Webhook von nicht-whitelistetem Nutzer";
   Kick Sim.the_guild Sim.alice "Mehrfach unzulässige Webhook-Erstellung"]
/\ attempts Sim.alice_user (update (update (update c0))) = 0.
Proof. vm_compute. split; reflexivity. Qed.

(** * Further properties *)

(** ** The invite pattern *)

Section Pattern.

Lemma rmatch_extend r :
forall (k k' : list Z -> bool) s post,
  (forall t, k t = true -> k' (t ++ post) = true) ->
  Regex.rmatch r k s = true -> Regex.rmatch r k' (s ++ post) = true.
Proof.
induction r as [|c|rs|a IHa b IHb|a IHa b IHb|a IHa]; intros k k' s post Hk; simpl.
- apply Hk.
- destruct s as [|x s]; simpl; [discriminate |].
  rewrite !andb_true_iff. intros [Hx Hs]. auto.
- induction s as [|x s IHs]; simpl; [discriminate |].
  rewrite !andb_true_iff, !orb_true_iff. intros [Hx [Hs | Hs]]; auto.
- apply IHa. intros t. apply IHb. exact Hk.
- rewrite !orb_true_iff. intros [H | H]; [left; eapply IHa | right; eapply IHb]; eauto.
- rewrite !orb_true_iff. intros [H | H]; [left; eapply IHa | right]; eauto.
Qed.

Lemma search_app_r r s post :
Regex.search r s = true -> Regex.search r (s ++ post) = true.
Proof.
induction s as [|x s IH]; simpl.
- rewrite orb_false_r. intros H.
  assert (Hm : Regex.rmatch r (fun _ => true) ([] ++ post) = true).
  { eapply rmatch_extend; [| exact H]. reflexivity. }
  simpl in Hm. destruct post; simpl; rewrite Hm; reflexivity.
- rewrite !orb_true_iff. intros [H | H]; [left | right; auto].
  apply (rmatch_extend r (fun _ => true) (fun _ => true) (x :: s) post);
    [reflexivity | exact H].
Qed.

Lemma search_app_l r pre s :
Regex.search r s = true -> Regex.search r (pre ++ s) = true.
Proof.
intros H. induction pre as [|x pre IH]; simpl; [exact H |].
rewrite IH. apply orb_true_r.
Qed.

(** X1: a text that holds a match of the pattern still holds one when more
    text is put before and after it. *)
Theorem invite_found_in_any_context r pre s post :
Regex.search r s = true -> Regex.search r (pre ++ s ++ post) = true.
Proof. intros H. apply search_app_l, search_app_r, H. Qed.

Lemma invite_found_in_any_context_witness :
Regex.search INVITE_REGEX
  (Regex.code_points "look: " ++ Regex.code_points "discord.gg/abc"
     ++ Regex.code_points " !!") = true.
Proof.
apply (invite_found_in_any_context INVITE_REGEX). vm_compute. reflexivity.
Defined.

Lemma tolower_ascii_upper x : Regex.tolower (ascii_upper x) = Regex.tolower x.
Proof.
unfold Regex.tolower, ascii_upper.
destruct (Z.leb_spec 97 x), (Z.leb_spec x 122); simpl;
  repeat match goal with
         | |- context [?a <=? ?b] => destruct (Z.leb_spec a b); simpl
         | |- context [?a =? ?b] => destruct (Z.eqb_spec a b); simpl
         end; try lia.
Qed.

Lemma tolower_ascii_lower x : Regex.tolower (ascii_lower x) = Regex.tolower x.
Proof.
unfold Regex.tolower, ascii_lower.
destruct (Z.leb_spec 65 x), (Z.leb_spec x 90); simpl;
  repeat match goal with
         | |- context [?a <=? ?b] => destruct (Z.leb_spec a b); simpl
         | |- context [?a =? ?b] => destruct (Z.eqb_spec a b); simpl
         end; try lia.
Qed.

Section Recasing.
Variable f : Z -> Z.
Hypothesis f_keeps_lower : forall x, Regex.tolower (f x) = Regex.tolower x.

Lemma lit_ok_recased c x : Regex.lit_ok c (f x) = Regex.lit_ok c x.
Proof. unfold Regex.lit_ok. rewrite f_keeps_lower. reflexivity. Qed.

Lemma set_ok_recased rs x : Regex.set_ok rs (f x) = Regex.set_ok rs x.
Proof.
unfold Regex.set_ok, Regex.range_ok.
induction rs as [|r rs IH]; simpl; [reflexivity |].
rewrite IH. f_equal.
induction (map _ _) as [|c l IHl]; simpl; [reflexivity |].
rewrite lit_ok_recased, IHl. reflexivity.
Qed.

Lemma rmatch_recased r :
forall (k k' : list Z -> bool) s,
  (forall t, k (map f t) = k' t) ->
  Regex.rmatch r k (map f s) = Regex.rmatch r k' s.
Proof.
induction r as [|c|rs|a IHa b IHb|a IHa b IHb|a IHa]; intros k k' s Hk; simpl.
- apply Hk.
- destruct s as [|x s]; simpl; [reflexivity |].
  rewrite lit_ok_recased, Hk. reflexivity.
- induction s as [|x s IHs]; simpl; [reflexivity |].
  rewrite set_ok_recased, IHs, Hk. reflexivity.
- apply IHa. intros t. apply IHb. exact Hk.
- rewrite (IHa k k'), (IHb k k'); auto.
- rewrite (IHa k k'), Hk; auto.
Qed.

Lemma search_recased r s : Regex.search r (map f s) = Regex.search r s.
Proof.
induction s as [|x s IH]; simpl.
- reflexivity.
- rewrite IH. f_equal.
  apply (rmatch_recased r (fun _ => true) (fun _ => true) (x :: s)). reflexivity.
Qed.

End Recasing.

(** X2: the search does not depend on the case of the ASCII letters of the
    text: putting them all in upper case, or all in lower case, gives the
    same answer. *)
Theorem search_ignores_ascii_case r s :
Regex.search r (map ascii_upper s) = Regex.search r s
/\ Regex.search r (map ascii_lower s) = Regex.search r s.
Proof.
split; apply search_recased; [apply tolower_ascii_upper | apply tolower_ascii_lower].
Qed.

Lemma search_true_iff r s :
Regex.search r s = true
<-> exists pre t, s = pre ++ t /\ Regex.rmatch r (fun _ => true) t = true.
Proof.
split.
- induction s as [|x s IH]; simpl.
  + rewrite orb_false_r. intros H. exists [], []. auto.
  + rewrite orb_true_iff. intros [H | H].
    * exists [], (x :: s). auto.
    * destruct (IH H) as (pre & t & -> & Ht). exists (x :: pre), t. auto.
- intros (pre & t & -> & Ht). apply search_app_l.
  destruct t; simpl; rewrite Ht; reflexivity.
Qed.

Lemma rmatch_reaches r :
forall (k : list Z -> bool) s,
  Regex.rmatch r k s = true -> exists pre t, s = pre ++ t /\ k t = true.
Proof.
induction r as [|c|rs|a IHa b IHb|a IHa b IHb|a IHa]; intros k s; simpl.
- intros H. exists [], s. auto.
- destruct s as [|x s]; [discriminate |].
  rewrite andb_true_iff. intros [_ H]. exists [x], s. auto.
- induction s as [|x s IHs]; [discriminate |].
  rewrite andb_true_iff, orb_true_iff. intros [_ [H | H]].
  + destruct (IHs H) as (pre & t & -> & Ht). exists (x :: pre), t. auto.
  + exists [x], s. auto.
- intros H. destruct (IHa _ _ H) as (pre & t & -> & Ht).
  destruct (IHb _ _ Ht) as (pre' & t' & -> & Ht').
  exists (pre ++ pre'), t'. rewrite app_assoc. auto.
- rewrite orb_true_iff. intros [H | H]; eauto.
- rewrite orb_true_iff. intros [H | H]; [eauto |]. exists [], s. auto.
Qed.

Lemma search_optional_prefix a r s :
Regex.search (Regex.Cat (Regex.Opt a) r) s = Regex.search r s.
Proof.
apply eq_true_iff_eq. rewrite !search_true_iff. split.
- intros (pre & t & -> & Ht). simpl in Ht. apply orb_true_iff in Ht as [Ht | Ht].
  + destruct (rmatch_reaches _ _ _ Ht) as (pre' & t' & -> & Ht').
    exists (pre ++ pre'), t'. rewrite app_assoc. auto.
  + eauto.
- intros (pre & t & -> & Ht). exists pre, t. split; [reflexivity |].
  simpl. rewrite Ht. apply orb_true_r.
Qed.

(** X3: the optional scheme and [www.] groups of [INVITE_REGEX] do not
    change what is found: a text has a match iff it has one of the host,
    slash and code part alone. *)
Theorem invite_prefixes_are_immaterial s :
Regex.search INVITE_REGEX s = Regex.search INVITE_CORE s.
Proof.
unfold INVITE_REGEX, INVITE_CORE. cbv zeta.
rewrite !search_optional_prefix. reflexivity.
Qed.

End Pattern.

(** ** More on the invite window *)

Section WindowBounds.

Lemma purge_length now dq : (length (purge now dq) <= length dq)%nat.
Proof.
destruct (purge_split now dq) as (old & Heq & _).
apply (f_equal length) in Heq. rewrite length_app in Heq. lia.
Qed.

Lemma deque_append_snoc dq x : exists front, deque_append dq x = front ++ [x].
Proof.
unfold deque_append. destruct (DEQUE_MAXLEN <=? length dq)%nat; eauto.
Qed.

Lemma deque_append_length dq x :
(length (deque_append dq x) <= Nat.max DEQUE_MAXLEN (length dq))%nat.
Proof.
unfold deque_append. destruct (DEQUE_MAXLEN <=? length dq)%nat eqn:H.
- apply Nat.leb_le in H. destruct dq; simpl in *;
    [unfold DEQUE_MAXLEN in H; lia | rewrite length_app; simpl; lia].
- apply Nat.leb_gt in H. rewrite length_app. simpl. lia.
Qed.

Lemma record_post_last dq now : last (record_post dq now) = Some now.
Proof.
unfold record_post. destruct (deque_append_snoc dq now) as [front ->].
destruct (purge_keeps now front [now]) as [pre' ->].
- discriminate.
- constructor; [apply in_span_now | constructor].
- apply last_snoc.
Qed.

Lemma record_post_length dq now :
(length dq <= DEQUE_MAXLEN)%nat -> (length (record_post dq now) <= DEQUE_MAXLEN)%nat.
Proof.
intros H. unfold record_post.
pose proof (purge_length now (deque_append dq now)).
pose proof (deque_append_length dq now). lia.
Qed.

(** X4: whatever the post times and their order, the window of an account
    never holds more than 50 entries, and after a post it is never empty:
    its newest entry is that post. *)
Theorem window_bounded_and_ends_with_post (h : list Z) (now : Z) :
(length (window_after (h ++ [now])) <= DEQUE_MAXLEN)%nat
/\ last (window_after (h ++ [now])) = Some now.
Proof.
split.
- generalize (h ++ [now]). intros posts.
  induction posts as [|t posts IH] using rev_ind.
  + unfold DEQUE_MAXLEN. simpl. lia.
  + rewrite window_after_snoc. apply record_post_length, IH.
- rewrite window_after_snoc. apply record_post_last.
Qed.

Lemma purge_sorted now dq :
StronglySorted Z.le dq -> purge now dq = List.filter (in_span now) dq.
Proof.
induction dq as [|t dq IH]; intros Hs; simpl; [reflexivity |].
apply StronglySorted_cons in Hs as [Hle Hs].
unfold in_span at 1.
destruct (seconds_gt now t INVITE_WINDOW_SECONDS) eqn:Hgt; simpl.
- apply IH, Hs.
- f_equal. symmetry. apply filter_all.
  eapply Forall_impl; [exact Hle |]. simpl. intros y Hy.
  apply (in_span_le now t y Hy). unfold in_span. rewrite Hgt. reflexivity.
Qed.

(** X5: on a deque whose times are in non-decreasing order the purge loop
    removes exactly the entries older than 15 seconds: what is left is the
    deque filtered by age. *)
Theorem purge_removes_exactly_the_old_entries now dq :
StronglySorted Z.le dq ->
purge now dq = List.filter (in_span now) dq
/\ Forall (fun t => now - t <= INVITE_WINDOW_SECONDS * second) (purge now dq).
Proof.
intros Hs. rewrite (purge_sorted now dq Hs). split; [reflexivity |].
apply Forall_forall. intros t Ht. apply list_elem_of_In, filter_In in Ht as [_ Ht].
unfold in_span, seconds_gt in Ht. apply negb_true_iff, Z.ltb_ge in Ht. exact Ht.
Qed.

Lemma purge_removes_exactly_the_old_entries_witness :
purge (20 * second) [0; 4 * second; 5 * second; 20 * second]
= List.filter (in_span (20 * second)) [0; 4 * second; 5 * second; 20 * second]
/\ Forall (fun t => 20 * second - t <= INVITE_WINDOW_SECONDS * second)
          (purge (20 * second) [0; 4 * second; 5 * second; 20 * second]).
Proof.
apply purge_removes_exactly_the_old_entries.
repeat constructor; unfold second; lia.
Defined.

End WindowBounds.

(** ** What the handlers issue and what they leave alone *)

Section Composition.
Context {E : Type} {P : Platform E}.

Lemma steps_ret {A} (R : config E -> config E -> Prop) `{!Reflexive R} (a : A) :
steps R (ret a).
Proof. intros c. simpl. reflexivity. Qed.

Lemma steps_throw {A} (R : config E -> config E -> Prop) `{!Reflexive R} x :
steps R (throw (A := A) x).
Proof. intros c. simpl. reflexivity. Qed.

Lemma steps_ask {A} (R : config E -> config E -> Prop) `{!Reflexive R} (f : E -> A) :
steps R (ask f).
Proof. intros c. simpl. reflexivity. Qed.

Lemma steps_gets {A} (R : config E -> config E -> Prop) `{!Reflexive R}
      (f : State -> A) :
steps R (gets f).
Proof. intros c. simpl. reflexivity. Qed.

Lemma steps_bind {A B} (R : config E -> config E -> Prop) `{!Transitive R}
      (m : M E A) (k : A -> M E B) :
steps R m -> (forall a, steps R (k a)) -> steps R (bind m k).
Proof.
intros Hm Hk c. unfold bind. specialize (Hm c).
destruct (m c) as [[a|x] c1]; simpl in *; [| exact Hm].
transitivity c1; [exact Hm | apply Hk].
Qed.

Lemma steps_catch {A} (R : config E -> config E -> Prop) `{!Transitive R}
      (m : M E A) (h : exn -> M E A) :
steps R m -> (forall x, steps R (h x)) -> steps R (catch m h).
Proof.
intros Hm Hh c. unfold catch. specialize (Hm c).
destruct (m c) as [[a|x] c1]; simpl in *; [exact Hm |].
transitivity c1; [exact Hm | apply Hh].
Qed.

Lemma steps_await {A} (R : config E -> config E -> Prop) what
      (run : E -> outcome A * E) :
(forall c e', R c (issued c what e')) -> steps R (await what run).
Proof.
intros H c. unfold await. destruct (run (env c)) as [r e']. apply H.
Qed.

Lemma steps_modify (R : config E -> config E -> Prop) f :
(forall c, R c {| bot := f (bot c); env := env c; trace := trace c |}) ->
steps R (modify f).
Proof. intros H c. apply H. Qed.

Lemma steps_for_each {A} (R : config E -> config E -> Prop)
      `{!Reflexive R} `{!Transitive R} (l : list A) (body : A -> M E unit) :
(forall a, steps R (body a)) -> steps R (for_each l body).
Proof.
intros Hbody. induction l as [|a l IH]; simpl; [apply steps_ret; assumption |].
apply steps_bind; [assumption | apply Hbody | intros _; exact IH].
Qed.

#[local] Instance emits_reflexive Q : Reflexive (emits (E := E) Q).
Proof. intros c. exists []. rewrite app_nil_r. auto. Qed.

#[local] Instance emits_transitive Q : Transitive (emits (E := E) Q).
Proof.
intros c1 c2 c3 (evs & H12 & Hevs) (evs' & H23 & Hevs').
exists (evs ++ evs'). rewrite H23, H12, app_assoc. split; [reflexivity |].
apply Forall_app. auto.
Qed.

Lemma emits_issued (Q : call -> Prop) (c : config E) what e' :
Q what -> emits Q c (issued c what e').
Proof. intros H. exists [(env c, what)]. simpl. auto. Qed.

Lemma emits_same_trace (Q : call -> Prop) (c c' : config E) :
trace c' = trace c -> emits Q c c'.
Proof. intros H. exists []. rewrite app_nil_r. auto. Qed.

#[local] Instance same_but_window_reflexive author :
  Reflexive (same_but_window (E := E) author).
Proof. intros c. repeat split. Qed.

#[local] Instance same_but_window_transitive author :
  Transitive (same_but_window (E := E) author).
Proof.
intros c1 c2 c3 (Ha & Hb & Hc) (Ha' & Hb' & Hc').
split; [congruence |]. split; [congruence |].
intros id Hid. rewrite Hc', Hc; auto.
Qed.

#[local] Instance same_but_throttle_reflexive key :
  Reflexive (same_but_throttle (E := E) key).
Proof. intros c. repeat split. Qed.

#[local] Instance same_but_throttle_transitive key :
  Transitive (same_but_throttle (E := E) key).
Proof.
intros c1 c2 c3 (Ha & Hb & Hc) (Ha' & Hb' & Hc').
split; [congruence |]. split; [congruence |].
intros k Hk. rewrite Hc', Hc; auto.
Qed.

#[local] Instance same_but_attempts_reflexive : Reflexive (same_but_attempts (E := E)).
Proof. intros c. split; reflexivity. Qed.

#[local] Instance same_but_attempts_transitive : Transitive (same_but_attempts (E := E)).
Proof. intros c1 c2 c3 [Ha Hb] [Ha' Hb']. split; congruence. Qed.

(** One step through a handler; [side] settles what an awaited call or an
    update of the module state has to satisfy. *)
Ltac steps_step side :=
  first
    [ apply steps_ret; apply _
    | apply steps_throw; apply _
    | apply steps_ask; apply _
    | apply steps_gets; apply _
    | apply steps_bind; [apply _ | | intros ?]
    | apply steps_catch; [apply _ | | intros ?]
    | apply steps_await; intros ? ?; side
    | apply steps_modify; intros ?; side
    | match goal with
      | |- steps _ (match ?x with _ => _ end) => destruct x eqn:?
      | |- steps _ (if ?x then _ else _) => destruct x eqn:?
      end ].

Ltac emits_side :=
  first [ apply emits_issued; simpl; repeat split; auto; repeat constructor
        | apply emits_same_trace; reflexivity ].

Lemma on_message_emits message :
steps (emits (message_calls message)) (on_message message).
Proof.
unfold on_message, invite_spam_enforcement, try_timeout, safe_kick.
repeat steps_step emits_side.
Qed.

Lemma find_audit_actor_emits guild action target_id within_seconds reasons :
steps (emits (audit_calls guild action reasons))
      (find_audit_actor guild action target_id within_seconds).
Proof.
unfold find_audit_actor, fetch_audit_logs, asyncio_sleep. cbv zeta.
repeat steps_step emits_side.
Qed.

Lemma safe_kick_emits_audit guild action reasons m reason :
reason ∈ reasons ->
steps (emits (audit_calls guild action reasons)) (safe_kick guild m reason).
Proof.
intros Hin. unfold safe_kick.
repeat steps_step ltac:(apply emits_issued; simpl; auto).
Qed.

(** X6: [on_message] issues nothing but the deletion of the message it
    handles, timeouts with the invite-spam reason and kicks from the guild of
    the message with that reason; it never sleeps, never reads the audit log
    and never touches a webhook. *)
Theorem on_message_issues_only_its_own_calls message (c : config E) :
exists evs,
  trace (snd (on_message message c)) = trace c ++ evs
  /\ Forall (fun ev => message_calls message (snd ev)) evs.
Proof. apply on_message_emits. Qed.

Ltac frame_side :=
  first [ repeat split; reflexivity
        | repeat split; simpl; try reflexivity;
          intros; rewrite lookup_insert_ne by congruence; reflexivity ].

(** X7: [on_message] changes nothing in the module state but the window of
    the author of the message: the windows of all other accounts, the
    webhook counters and the audit throttle are left as they are. *)
Theorem on_message_touches_only_the_authors_window message (c : config E) :
let c' := snd (on_message message c) in
webhook_attempts (bot c') = webhook_attempts (bot c)
/\ last_audit_lookup (bot c') = last_audit_lookup (bot c)
/\ forall id, id <> user_id (message_author message) ->
              invite_events (bot c') !! id = invite_events (bot c) !! id.
Proof.
revert c.
change (steps (same_but_window (user_id (message_author message)))
              (on_message message)).
unfold on_message, invite_spam_enforcement, try_timeout, safe_kick. cbv zeta.
repeat steps_step frame_side.
Qed.

(** X8: each of the five audit handlers issues nothing but sleeps of one
    second, audit queries for its own action in its own guild with limit 8,
    and kicks from that guild with its own reasons; none of them deletes a
    message, times a member out or touches a webhook. *)
Theorem audit_handlers_issue_only_their_own_calls :
(forall member,
    steps (emits (audit_calls (member_guild member) AuditLogAction.bot_add
                   ["Nicht-whitelisteter Bot-Invite"; "Bot-Invite ohne Whitelist"]))
          (on_member_join member))
/\ (forall channel,
       steps (emits (audit_calls (channel_guild channel) AuditLogAction.channel_delete
                      ["Kanal gelöscht ohne Whitelist"]))
             (on_guild_channel_delete channel))
/\ (forall role,
       steps (emits (audit_calls (role_guild role) AuditLogAction.role_delete
                      ["Rolle gelöscht ohne Whitelist"]))
             (on_guild_role_delete role))
/\ (forall guild user,
       steps (emits (audit_calls guild AuditLogAction.ban ["Ban ohne Whitelist"]))
             (on_member_ban guild user))
/\ (forall member,
       steps (emits (audit_calls (member_guild member) AuditLogAction.kick
                      ["Kick ohne Whitelist"]))
             (on_member_remove member)).
Proof.
split; [| split; [| split; [| split]]]; intros;
  unfold on_member_join, on_guild_channel_delete, on_guild_role_delete,
    on_member_ban, on_member_remove, asyncio_sleep; cbv zeta;
  repeat first
    [ apply find_audit_actor_emits
    | apply safe_kick_emits_audit; repeat constructor
    | steps_step emits_side ].
Qed.

Lemma find_audit_actor_frame guild action target_id within_seconds :
steps (same_but_throttle (guild_id guild, (action, target_id)))
      (find_audit_actor guild action target_id within_seconds).
Proof.
unfold find_audit_actor, fetch_audit_logs, asyncio_sleep. cbv zeta.
repeat steps_step frame_side.
Qed.

Lemma safe_kick_frame (R : config E -> config E -> Prop)
      `{!Reflexive R} `{!Transitive R} guild m reason :
(forall c what e', R c (issued c what e')) ->
steps R (safe_kick guild m reason).
Proof.
intros HR. unfold safe_kick. repeat steps_step ltac:(apply HR).
Qed.

(** X9: an audit handler changes nothing in the module state but the
    throttle entry of its own lookup key: the invite windows, the webhook
    counters and the throttle entries of all other keys are left as they
    are.  (Shown for the lookup and for the handlers of channel deletions,
    role deletions, bans, removals and bot joins.) *)
Theorem audit_handlers_touch_only_their_throttle_entry :
(forall guild action target_id within_seconds,
    steps (same_but_throttle (guild_id guild, (action, target_id)))
          (find_audit_actor guild action target_id within_seconds))
/\ (forall member,
       steps (same_but_throttle (guild_id (member_guild member),
                                 (AuditLogAction.bot_add, Some (member_id member))))
             (on_member_join member))
/\ (forall channel,
       steps (same_but_throttle (guild_id (channel_guild channel),
                                 (AuditLogAction.channel_delete,
                                  Some (channel_id channel))))
             (on_guild_channel_delete channel))
/\ (forall role,
       steps (same_but_throttle (guild_id (role_guild role),
                                 (AuditLogAction.role_delete, Some (role_id role))))
             (on_guild_role_delete role))
/\ (forall guild user,
       steps (same_but_throttle (guild_id guild,
                                 (AuditLogAction.ban, Some (user_id user))))
             (on_member_ban guild user))
/\ (forall member,
       steps (same_but_throttle (guild_id (member_guild member),
                                 (AuditLogAction.kick, Some (member_id member))))
             (on_member_remove member)).
Proof.
split; [intros; apply find_audit_actor_frame |].
split; [| split; [| split; [| split]]]; intros;
  unfold on_member_join, on_guild_channel_delete, on_guild_role_delete,
    on_member_ban, on_member_remove, asyncio_sleep; cbv zeta;
  repeat first
    [ apply find_audit_actor_frame
    | apply safe_kick_frame; [apply _ | apply _ | intros; frame_side]
    | steps_step frame_side ].
Qed.

Lemma search_channels_steps (R : config E -> config E -> Prop)
      `{!Reflexive R} `{!Transitive R} tid chs :
(forall c what e', R c (issued c what e')) ->
steps R (search_channels tid chs).
Proof.
intros HR. induction chs as [|ch rest IH]; simpl.
- apply steps_ret; assumption.
- repeat first [exact IH | steps_step ltac:(apply HR)].
Qed.

Lemma webhook_entry_emits channel entry :
steps (emits (webhook_calls channel)) (webhook_entry channel entry).
Proof.
unfold webhook_entry, delete_webhook, count_attempt, safe_kick. cbv zeta.
assert (Hsearch : forall tid chs,
           steps (emits (webhook_calls channel)) (search_channels tid chs)).
{ intros tid chs. induction chs as [|ch rest IH]; simpl.
  - apply steps_ret; apply _.
  - repeat first [exact IH | steps_step emits_side]. }
repeat first [apply Hsearch | steps_step emits_side].
Qed.

Lemma webhook_entry_frame channel entry :
steps same_but_attempts (webhook_entry channel entry).
Proof.
unfold webhook_entry, delete_webhook, count_attempt. cbv zeta.
repeat first
  [ apply search_channels_steps; [apply _ | apply _ | intros; frame_side]
  | apply safe_kick_frame; [apply _ | apply _ | intros; frame_side]
  | steps_step frame_side ].
Qed.

(** X10: [on_webhooks_update] sleeps one second first and never again;
    after that it issues nothing but audit queries for webhook creations in
    the guild of the channel with limit 6, listings of webhooks, deletions
    of webhooks with its own reason, and kicks from that guild with its own
    reason; it leaves the
    invite windows and the audit throttle as they are (its audit query does
    not go through the throttle). *)
Theorem on_webhooks_update_calls_and_frame channel (c : config E) :
let c' := snd (on_webhooks_update channel c) in
(exists evs,
    trace c' = trace c ++ (env c, Sleep 1) :: evs
    /\ Forall (fun ev => webhook_calls channel (snd ev)) evs)
/\ invite_events (bot c') = invite_events (bot c)
/\ last_audit_lookup (bot c') = last_audit_lookup (bot c).
Proof.
cbv zeta. split.
- unfold on_webhooks_update. cbv zeta. unfold bind at 1.
  rewrite asyncio_sleep_run.
  match goal with
  | |- context [catch ?m ?h] =>
      assert (Hrest : steps (emits (webhook_calls channel)) (catch m h))
  end.
  { unfold fetch_audit_logs.
    repeat first
      [ apply steps_for_each; [apply _ | apply _ | intros ?]
      | apply webhook_entry_emits
      | steps_step emits_side ]. }
  match goal with
  | |- context [catch ?m ?h ?c1] => destruct (Hrest c1) as (evs & Htr & Hevs)
  end.
  exists evs. rewrite Htr. simpl. rewrite <- app_assoc. auto.
- revert c. change (steps same_but_attempts (on_webhooks_update channel)).
  unfold on_webhooks_update, fetch_audit_logs, asyncio_sleep. cbv zeta.
  repeat first
    [ apply steps_for_each; [apply _ | apply _ | intros ?]
    | apply webhook_entry_frame
    | steps_step frame_side ].
Qed.

End Composition.

(** ** Failures of the platform *)

Section Absorption.
Context {E : Type} {P : Platform E}.

Lemma nr_ret {A} (a : A) : never_raises (E := E) (ret a).
Proof. intros c. eexists. reflexivity. Qed.

Lemma nr_ask {A} (f : E -> A) : never_raises (ask f).
Proof. intros c. eexists. reflexivity. Qed.

Lemma nr_gets {A} (f : State -> A) : never_raises (E := E) (gets f).
Proof. intros c. eexists. reflexivity. Qed.

Lemma nr_modify f : never_raises (E := E) (modify f).
Proof. intros c. eexists. reflexivity. Qed.

Lemma nr_sleep n : never_raises (asyncio_sleep n).
Proof. intros c. eexists. reflexivity. Qed.

Lemma nr_bind {A B} (m : M E A) (k : A -> M E B) :
never_raises m -> (forall a, never_raises (k a)) -> never_raises (bind m k).
Proof.
intros Hm Hk c. unfold bind. destruct (Hm c) as [a Ha].
destruct (m c) as [[a'|x] c1]; simpl in *; [apply Hk | discriminate].
Qed.

Lemma nr_catch {A} (m : M E A) (h : exn -> M E A) :
tame m -> (forall x, is_HTTPException x = true -> never_raises (h x)) ->
never_raises (catch m h).
Proof.
intros Hm Hh c. unfold catch. specialize (Hm c).
destruct (m c) as [[a|x] c1]; simpl in *; [eexists; reflexivity |].
apply Hh, Hm.
Qed.

Lemma nr_for_each {A} (l : list A) (body : A -> M E unit) :
(forall a, never_raises (body a)) -> never_raises (for_each l body).
Proof.
intros Hbody. induction l as [|a l IH]; simpl; [apply nr_ret |].
apply nr_bind; [apply Hbody | intros _; exact IH].
Qed.

Lemma tame_of_nr {A} (m : M E A) : never_raises m -> tame m.
Proof. intros H c. destruct (H c) as [a ->]. exact I. Qed.

Lemma tame_throw {A} x : is_HTTPException x = true -> tame (E := E) (throw (A := A) x).
Proof. intros H c. exact H. Qed.

Lemma tame_await {A} what (run : E -> outcome A * E) :
(forall e, absorbed (fst (run e))) -> tame (await what run).
Proof.
intros H c. unfold await. specialize (H (env c)).
destruct (run (env c)) as [r e']. exact H.
Qed.

Lemma tame_bind {A B} (m : M E A) (k : A -> M E B) :
tame m -> (forall a, tame (k a)) -> tame (bind m k).
Proof.
intros Hm Hk c. unfold bind. specialize (Hm c).
destruct (m c) as [[a|x] c1]; simpl in *; [apply Hk | exact Hm].
Qed.

Lemma tame_catch {A} (m : M E A) (h : exn -> M E A) :
tame m -> (forall x, is_HTTPException x = true -> tame (h x)) -> tame (catch m h).
Proof.
intros Hm Hh c. unfold catch. specialize (Hm c).
destruct (m c) as [[a|x] c1]; simpl in *; [exact I | apply Hh, Hm].
Qed.

Section HttpOnly.
Hypothesis platform_http_only : http_only.

Ltac tame_step :=
  first
    [ apply tame_of_nr; first [apply nr_ret | apply nr_ask | apply nr_gets | apply nr_modify]
    | apply tame_throw; assumption
    | apply tame_await; intros ?; apply platform_http_only
    | apply tame_bind; [| intros ?]
    | apply tame_catch; [| intros ? ?]
    | match goal with
      | |- tame (match ?x with _ => _ end) => destruct x eqn:?
      | |- tame (if ?x then _ else _) => destruct x eqn:?
      end ].

Ltac nr_step :=
  first
    [ apply nr_ret | apply nr_ask | apply nr_gets | apply nr_modify | apply nr_sleep
    | apply nr_bind; [| intros ?]
    | apply nr_catch; [repeat tame_step | intros ? ?]
    | match goal with
      | H : is_HTTPException OtherError = true |- _ => discriminate H
      | |- never_raises (match ?x with _ => _ end) => destruct x eqn:?
      | |- never_raises (if ?x then _ else _) => destruct x eqn:?
      end ].

Lemma safe_kick_never_raises guild m reason : never_raises (safe_kick guild m reason).
Proof. unfold safe_kick. repeat nr_step. Qed.

Lemma try_timeout_never_raises m duration reason :
never_raises (try_timeout m duration reason).
Proof. unfold try_timeout. repeat nr_step. Qed.

Lemma find_audit_actor_never_raises guild action target_id within_seconds :
never_raises (find_audit_actor guild action target_id within_seconds).
Proof. unfold find_audit_actor, fetch_audit_logs. cbv zeta. repeat nr_step. Qed.

Lemma search_channels_tame tid chs : tame (search_channels tid chs).
Proof.
induction chs as [|ch rest IH]; simpl.
- apply tame_of_nr, nr_ret.
- repeat first [exact IH | tame_step].
Qed.

Lemma webhook_entry_never_raises channel entry :
never_raises (webhook_entry channel entry).
Proof.
unfold webhook_entry, delete_webhook, count_attempt. cbv zeta.
repeat first
  [ apply safe_kick_never_raises
  | apply nr_catch; [repeat first [apply search_channels_tame | tame_step] | intros ? ?]
  | nr_step ].
Qed.

(** X11: on a platform whose calls return or raise nothing but [Forbidden],
    [NotFound] and other [HTTPException]s, no handler raises: every one of
    the seven handlers returns normally from every configuration. *)
Theorem handlers_absorb_http_failures :
(forall message (c : config E), fst (on_message message c) = Done tt)
/\ (forall member (c : config E), fst (on_member_join member c) = Done tt)
/\ (forall channel (c : config E), fst (on_guild_channel_delete channel c) = Done tt)
/\ (forall role (c : config E), fst (on_guild_role_delete role c) = Done tt)
/\ (forall guild user (c : config E), fst (on_member_ban guild user c) = Done tt)
/\ (forall member (c : config E), fst (on_member_remove member c) = Done tt)
/\ (forall channel (c : config E), fst (on_webhooks_update channel c) = Done tt).
Proof.
assert (Hunit : forall m : M E unit, never_raises m -> forall c, fst (m c) = Done tt).
{ intros m Hm c. destruct (Hm c) as [[] ->]. reflexivity. }
split; [| split; [| split; [| split; [| split; [| split]]]]]; intros; apply Hunit;
  unfold on_message, invite_spam_enforcement, on_member_join,
    on_guild_channel_delete, on_guild_role_delete, on_member_ban,
    on_member_remove, on_webhooks_update, fetch_audit_logs; cbv zeta;
  repeat first
    [ apply safe_kick_never_raises
    | apply try_timeout_never_raises
    | apply find_audit_actor_never_raises
    | apply nr_sleep
    | apply nr_bind; [| intros ?]
    | match goal with
      | |- never_raises (catch _ _) =>
          apply nr_catch;
          [ repeat first
              [ apply tame_of_nr, nr_for_each; intros ?;
                apply webhook_entry_never_raises
              | tame_step ]
          | intros ? ? ]
      end
    | nr_step ].
Qed.

End HttpOnly.

End Absorption.

Lemma handlers_absorb_http_failures_witness :
fst (on_message (P := Sim.platform Scenes.all_forbidden)
       (Sim.invite 1 Sim.alice_user) (Sim.start Sim.world0)) = Done tt.
Proof.
refine (proj1 (handlers_absorb_http_failures (P := Sim.platform Scenes.all_forbidden) _)
              _ _).
repeat split; intros; reflexivity.
Defined.

(** ** The audit handlers, case by case *)

Section AuditCases.
Context {E : Type} {P : Platform E}.

(** Runs a handler up to the end of its lookup. *)
Ltac to_lookup :=
  unfold attributed in *; unfold bind; rewrite asyncio_sleep_run in *; simpl in *;
  match goal with
  | |- context [find_audit_actor ?g ?a ?t ?w ?c] =>
      destruct (find_audit_actor g a t w c) as [[[actor|]|x] c'] eqn:Hrun;
      simpl in *; try discriminate
  end.

(** X12: when the lookup of an audit handler names nobody (no fresh record
    for the target, or the audit log could not be read), the handler stops
    there: nothing is issued after the lookup and nobody is kicked.  This is
    the case of a member who leaves on their own. *)
Theorem no_attribution_no_enforcement :
(forall member (c : config E),
    member_bot member = true ->
    fst (attributed (member_guild member) AuditLogAction.bot_add
                    (member_id member) c) = Done None ->
    on_member_join member c
    = (Done tt, snd (attributed (member_guild member) AuditLogAction.bot_add
                                (member_id member) c)))
/\ (forall channel (c : config E),
       fst (attributed (channel_guild channel) AuditLogAction.channel_delete
                       (channel_id channel) c) = Done None ->
       on_guild_channel_delete channel c
       = (Done tt, snd (attributed (channel_guild channel)
                                   AuditLogAction.channel_delete
                                   (channel_id channel) c)))
/\ (forall role (c : config E),
       fst (attributed (role_guild role) AuditLogAction.role_delete
                       (role_id role) c) = Done None ->
       on_guild_role_delete role c
       = (Done tt, snd (attributed (role_guild role) AuditLogAction.role_delete
                                   (role_id role) c)))
/\ (forall guild user (c : config E),
       fst (attributed guild AuditLogAction.ban (user_id user) c) = Done None ->
       on_member_ban guild user c
       = (Done tt, snd (attributed guild AuditLogAction.ban (user_id user) c)))
/\ (forall member (c : config E),
       fst (attributed (member_guild member) AuditLogAction.kick
                       (member_id member) c) = Done None ->
       on_member_remove member c
       = (Done tt, snd (attributed (member_guild member) AuditLogAction.kick
                                   (member_id member) c))).
Proof.
split.
{ intros member c Hbot Hres. unfold on_member_join. rewrite Hbot.
  to_lookup. reflexivity. }
split.
{ intros channel c Hres. unfold on_guild_channel_delete. to_lookup. reflexivity. }
split.
{ intros role c Hres. unfold on_guild_role_delete. to_lookup. reflexivity. }
split.
{ intros guild user c Hres. unfold on_member_ban. to_lookup. reflexivity. }
intros member c Hres. unfold on_member_remove. cbv zeta. to_lookup. reflexivity.
Qed.

(** The kick that follows the lookup of an untrusted actor. *)
Ltac kick_follows :=
  to_lookup;
  match goal with
  | Hres : Done _ = Done _ |- _ => injection Hres as ->
  end;
  match goal with
  | Hu : is_whitelisted _ = false |- _ => rewrite Hu
  end;
  simpl; unfold ask; simpl;
  match goal with
  | Hm : get_member _ _ _ = Some _ |- _ => rewrite Hm
  end;
  rewrite safe_kick_run; simpl;
  match goal with
  | Hs : is_Some _ |- _ => destruct Hs as [? Hs]; rewrite Hs
  end;
  reflexivity.

(** X13: when the lookup names an account that is not on the whitelist and
    the member cache holds it, the handlers for channel deletions, role
    deletions, bans and removals issue exactly one more call: the kick of
    that member from the guild, with the reason of the handler. *)
Theorem untrusted_actor_is_kicked :
(forall channel (c : config E) a m,
    let r := attributed (channel_guild channel) AuditLogAction.channel_delete
                        (channel_id channel) c in
    fst r = Done (Some a) ->
    is_whitelisted (user_id a) = false ->
    get_member (env (snd r)) (channel_guild channel) (user_id a) = Some m ->
    is_Some (get_member (env (snd r)) (channel_guild channel) (member_id m)) ->
    trace (snd (on_guild_channel_delete channel c))
    = trace (snd r)
        ++ [(env (snd r),
             Kick (channel_guild channel) m "Kanal gelöscht ohne Whitelist")])
/\ (forall role (c : config E) a m,
       let r := attributed (role_guild role) AuditLogAction.role_delete
                           (role_id role) c in
       fst r = Done (Some a) ->
       is_whitelisted (user_id a) = false ->
       get_member (env (snd r)) (role_guild role) (user_id a) = Some m ->
       is_Some (get_member (env (snd r)) (role_guild role) (member_id m)) ->
       trace (snd (on_guild_role_delete role c))
       = trace (snd r)
           ++ [(env (snd r), Kick (role_guild role) m "Rolle gelöscht ohne Whitelist")])
/\ (forall guild user (c : config E) a m,
       let r := attributed guild AuditLogAction.ban (user_id user) c in
       fst r = Done (Some a) ->
       is_whitelisted (user_id a) = false ->
       get_member (env (snd r)) guild (user_id a) = Some m ->
       is_Some (get_member (env (snd r)) guild (member_id m)) ->
       trace (snd (on_member_ban guild user c))
       = trace (snd r) ++ [(env (snd r), Kick guild m "Ban ohne Whitelist")])
/\ (forall member (c : config E) a m,
       let r := attributed (member_guild member) AuditLogAction.kick
                           (member_id member) c in
       fst r = Done (Some a) ->
       is_whitelisted (user_id a) = false ->
       get_member (env (snd r)) (member_guild member) (user_id a) = Some m ->
       is_Some (get_member (env (snd r)) (member_guild member) (member_id m)) ->
       trace (snd (on_member_remove member c))
       = trace (snd r)
           ++ [(env (snd r), Kick (member_guild member) m "Kick ohne Whitelist")]).
Proof.
split.
{ intros channel c a m r Hres Hu Hm Hs. subst r.
  unfold on_guild_channel_delete. kick_follows. }
split.
{ intros role c a m r Hres Hu Hm Hs. subst r.
  unfold on_guild_role_delete. kick_follows. }
split.
{ intros guild user c a m r Hres Hu Hm Hs. subst r.
  unfold on_member_ban. kick_follows. }
intros member c a m r Hres Hu Hm Hs. subst r.
unfold on_member_remove. cbv zeta. kick_follows.
Qed.

End AuditCases.

Lemma untrusted_actor_is_kicked_witness :
Sim.calls (snd (on_guild_channel_delete (P := Sim.platform Sim.no_faults)
                  Sim.general (Sim.start Scenes.channel_deleted_by_alice)))
= Sim.calls (snd (attributed (P := Sim.platform Sim.no_faults) Sim.the_guild
                    AuditLogAction.channel_delete 7
                    (Sim.start Scenes.channel_deleted_by_alice)))
    ++ [Kick Sim.the_guild Sim.alice "Kanal gelöscht ohne Whitelist"].
Proof.
unfold Sim.calls.
rewrite (proj1 (untrusted_actor_is_kicked (P := Sim.platform Sim.no_faults))
           Sim.general (Sim.start Scenes.channel_deleted_by_alice)
           Sim.alice_user Sim.alice eq_refl eq_refl eq_refl
           (ex_intro _ Sim.alice eq_refl)).
rewrite map_app. reflexivity.
Defined.

Lemma no_attribution_no_enforcement_witness :
Sim.calls (snd (on_member_remove (P := Sim.platform Sim.no_faults) Sim.bob
                  (Sim.start Sim.world0)))
= [Sleep 1; AuditLogs Sim.the_guild 8 AuditLogAction.kick].
Proof.
unfold Sim.calls.
rewrite (proj2 (proj2 (proj2 (proj2
           (no_attribution_no_enforcement (P := Sim.platform Sim.no_faults)))))
           Sim.bob (Sim.start Sim.world0) eq_refl).
reflexivity.
Defined.

Section BotJoin.
Context {E : Type} {P : Platform E}.

(** X14: when a bot joins and the lookup names an untrusted account,
    [on_member_join] first kicks the bot, whatever the id of the bot (the
    whitelist is consulted for the inviter only), provided the cache holds
    it; after that kick it looks the inviter up and kicks it too if the
    cache still holds it.  A member that is not a bot triggers nothing. *)
Theorem bot_join_kicks_bot_then_inviter member (c : config E) :
(member_bot member = false -> on_member_join member c = (Done tt, c))
/\ (forall a,
       let guild := member_guild member in
       let r := attributed guild AuditLogAction.bot_add (member_id member) c in
       let k := guild_kick guild member "Nicht-whitelisteter Bot-Invite" (env (snd r)) in
       let c1 := issued (snd r) (Kick guild member "Nicht-whitelisteter Bot-Invite")
                        (snd k) in
       member_bot member = true ->
       fst r = Done (Some a) ->
       is_whitelisted (user_id a) = false ->
       is_Some (get_member (env (snd r)) guild (member_id member)) ->
       absorbed (fst k) ->
       match get_member (snd k) guild (user_id a) with
       | Some inviter =>
           is_Some (get_member (snd k) guild (member_id inviter)) ->
           trace (snd (on_member_join member c))
           = trace c1 ++ [(snd k, Kick guild inviter "Bot-Invite ohne Whitelist")]
       | None => on_member_join member c = (Done tt, c1)
       end).
Proof.
split.
{ intros Hbot. unfold on_member_join. rewrite Hbot. reflexivity. }
intros a guild r k c1 Hbot Hres Hu [m' Hm'] Habs.
assert (Heq : on_member_join member c
              = match get_member (snd k) guild (user_id a) with
                | Some inviter =>
                    safe_kick guild (Some inviter) "Bot-Invite ohne Whitelist" c1
                | None => (Done tt, c1)
                end).
{ subst c1 k r guild. unfold on_member_join. rewrite Hbot.
  unfold attributed in *. unfold bind at 1. rewrite asyncio_sleep_run in *.
  cbn [fst snd] in *. unfold bind at 1.
  destruct (find_audit_actor _ _ _ _ _) as [[[actor|]|x] c'] eqn:Hrun;
    cbn [fst snd] in *; try discriminate.
  injection Hres as ->. rewrite Hu. cbn [negb].
  unfold bind at 1. rewrite safe_kick_run, Hm'. cbv zeta.
  destruct (guild_kick (member_guild member) member _ (env c')) as [kr e2] eqn:Hk.
  cbn [fst snd] in *.
  assert (Hdone : match kr with
                  | Raised OtherError => Raised OtherError
                  | _ => Done tt
                  end = Done tt).
  { destruct kr as [[]|[]]; try reflexivity. discriminate Habs. }
  rewrite Hdone. unfold bind, ask. cbn [fst snd env issued].
  destruct (get_member e2 (member_guild member) (user_id a)); reflexivity. }
rewrite Heq.
destruct (get_member (snd k) guild (user_id a)) as [inviter|]; [| reflexivity].
intros [m2 Hm2]. rewrite safe_kick_run.
replace (env c1) with (snd k) by reflexivity. rewrite Hm2. reflexivity.
Qed.

End BotJoin.

Lemma bot_join_kicks_bot_then_inviter_witness :
is_whitelisted (member_id Scenes.trusted_bot) = true
/\ Sim.calls (snd (on_member_join (P := Sim.platform Sim.no_faults)
                     Scenes.trusted_bot (Sim.start Scenes.bot_added_by_alice)))
   = [Sleep 1; AuditLogs Sim.the_guild 8 AuditLogAction.bot_add;
      Kick Sim.the_guild Scenes.trusted_bot "Nicht-whitelisteter Bot-Invite";
      Kick Sim.the_guild Sim.alice "Bot-Invite ohne Whitelist"].
Proof.
split; [vm_compute; reflexivity |].
pose proof (proj2 (bot_join_kicks_bot_then_inviter (P := Sim.platform Sim.no_faults)
                     Scenes.trusted_bot (Sim.start Scenes.bot_added_by_alice))
                  Sim.alice_user eq_refl eq_refl eq_refl
                  (ex_intro _ Scenes.trusted_bot eq_refl) I) as H.
unfold Sim.calls. rewrite (H (ex_intro _ Sim.alice eq_refl)).
vm_compute. reflexivity.
Defined.

(** ** More on the lookup *)

Section Lookup.
Context {E : Type} {P : Platform E}.

Lemma scan_entries_first now target_id within_seconds pre entry rest :
Forall (fun e => entry_skipped now target_id within_seconds e = true) pre ->
entry_skipped now target_id within_seconds entry = false ->
scan_entries now target_id within_seconds (pre ++ entry :: rest) = entry_user entry.
Proof.
intros Hpre Hentry. induction Hpre as [|e pre He _ IH]; simpl.
- rewrite Hentry. reflexivity.
- rewrite He. exact IH.
Qed.

(** X15: the first record of the page (the newest) that is fresh and has the
    requested target decides the lookup, and nothing after it is looked at:
    the result is its user, also when that record has no user, in which case
    the lookup names nobody even if an older record would match. *)
Theorem first_fresh_record_decides
        guild action target_id within_seconds (c : config E) entries e' pre entry rest :
let now := utcnow (env c) in
audit_logs guild 8 action (env (throttled guild action target_id c)) = (Done entries, e') ->
take 8 entries = pre ++ entry :: rest ->
Forall (fun e => entry_skipped now target_id within_seconds e = true) pre ->
entry_skipped now target_id within_seconds entry = false ->
fst (find_audit_actor guild action target_id within_seconds c) = Done (entry_user entry).
Proof.
intros now Hlogs Hpage Hpre Hentry.
rewrite find_audit_actor_run. cbv zeta. rewrite Hlogs. simpl.
rewrite Hpage. f_equal. apply scan_entries_first; assumption.
Qed.

(** X16: a lookup always leaves the time it started in the throttle entry of
    its key, also when the audit log could not be read or the query raised;
    and a lookup that finds no entry for its key does not sleep: its only
    call is the query, issued in the state the lookup started in. *)
Theorem lookup_records_its_start guild action target_id within_seconds (c : config E) :
let key : audit_key := (guild_id guild, (action, target_id)) in
let c' := snd (find_audit_actor guild action target_id within_seconds c) in
last_audit_lookup (bot c') !! key = Some (utcnow (env c))
/\ (last_audit_lookup (bot c) !! key = None ->
    trace c' = trace c ++ [(env c, AuditLogs guild 8 action)]).
Proof.
cbv zeta. rewrite find_audit_actor_run. cbv zeta. simpl. split.
- apply lookup_insert_eq.
- intros Hnone. unfold throttled. cbv zeta. rewrite Hnone. reflexivity.
Qed.

End Lookup.

Lemma first_fresh_record_decides_witness :
fst (find_audit_actor (P := Sim.platform Sim.no_faults) Sim.the_guild
       AuditLogAction.channel_delete (Some 7) WITHIN_SECONDS
       (Sim.start Scenes.page_with_anonymous_record))
= Done None.
Proof.
apply (first_fresh_record_decides (P := Sim.platform Sim.no_faults) Sim.the_guild
         AuditLogAction.channel_delete (Some 7) WITHIN_SECONDS
         (Sim.start Scenes.page_with_anonymous_record)
         [Scenes.record_without_user; Sim.record_at (28 * second) Sim.bob_user 7]
         Scenes.page_with_anonymous_record
         [] Scenes.record_without_user [Sim.record_at (28 * second) Sim.bob_user 7]).
- reflexivity.
- reflexivity.
- constructor.
- vm_compute. reflexivity.
Defined.

(** ** More on the webhook counter *)

Section Counter.
Context {E : Type} {P : Platform E}.

Lemma count_attempt_next guild actor (c : config E) :
(forall g m reason e, absorbed (fst (guild_kick g m reason e))) ->
attempts actor (snd (count_attempt guild actor c))
= if WEBHOOK_MAX_ATTEMPTS <=? attempts actor c + 1 then 0 else attempts actor c + 1.
Proof.
intros Hkick.
destruct (WEBHOOK_MAX_ATTEMPTS <=? attempts actor c + 1) eqn:Hcmp.
- pose proof (count_attempt_threshold guild actor c Hcmp) as H. cbv zeta in H.
  destruct (get_member (env c) guild (user_id actor)) as [m|].
  + destruct H as [Hsome Hnone].
    destruct (get_member (env c) guild (member_id m)) as [m'|] eqn:Hm'.
    * destruct (Hsome (ex_intro _ m' eq_refl)) as [_ Hrest].
      apply Hrest, Hkick.
    * apply Hnone. reflexivity.
  + apply H.
- apply (count_attempt_below guild actor c Hcmp).
Qed.

(** X17: the webhook counter of an account runs in cycles of three: when
    kicks raise nothing outside [HTTPException], after [n] violations
    counted from a count of 0 the count is [n] modulo 3, so it never stays
    at or above the threshold. *)
Theorem counter_cycles_modulo_three n guild actor (c : config E) :
(forall g m reason e, absorbed (fst (guild_kick g m reason e))) ->
attempts actor c = 0 ->
attempts actor (violations n guild actor c) = Z.of_nat n mod WEBHOOK_MAX_ATTEMPTS.
Proof.
intros Hkick Hzero.
assert (Hgen : forall n c,
           0 <= attempts actor c < WEBHOOK_MAX_ATTEMPTS ->
           attempts actor (violations n guild actor c)
           = (attempts actor c + Z.of_nat n) mod WEBHOOK_MAX_ATTEMPTS).
{ clear c Hzero n. intros n. induction n as [|n IH]; intros c Hc.
  - cbn [violations]. change (Z.of_nat 0) with 0.
    rewrite Z.add_0_r, Z.mod_small; [reflexivity | exact Hc].
  - cbn [violations].
    pose proof (count_attempt_next guild actor c Hkick) as Hnext.
    unfold WEBHOOK_MAX_ATTEMPTS in *.
    destruct (3 <=? attempts actor c + 1) eqn:Hcmp.
    + apply Z.leb_le in Hcmp. rewrite IH by (rewrite Hnext; lia).
      rewrite Hnext.
      replace (attempts actor c + Z.of_nat (S n)) with (Z.of_nat n + 1 * 3) by lia.
      rewrite Z.mod_add by lia. reflexivity.
    + apply Z.leb_gt in Hcmp. rewrite IH by (rewrite Hnext; lia).
      rewrite Hnext. f_equal. lia. }
rewrite Hgen by (rewrite Hzero; unfold WEBHOOK_MAX_ATTEMPTS; lia).
rewrite Hzero. reflexivity.
Qed.

End Counter.

Lemma counter_cycles_modulo_three_witness :
attempts Sim.alice_user
         (violations (P := Sim.platform Sim.no_faults) 7 Sim.the_guild Sim.alice_user
                     (Sim.start Sim.world0))
= 7 mod WEBHOOK_MAX_ATTEMPTS.
Proof.
apply (counter_cycles_modulo_three (P := Sim.platform Sim.no_faults) 7).
- intros g m reason e. exact I.
- reflexivity.
Defined.

(** ** Locating and deleting the webhook *)

Section Deletion.
Context {E : Type} {P : Platform E}.

#[local] Existing Instance emits_reflexive.
#[local] Existing Instance emits_transitive.

Lemma find_hook_id tid hooks w :
find_hook tid hooks = Some w -> Some (webhook_id w) = tid.
Proof.
unfold find_hook. intros H. apply find_some in H as [_ H].
apply bool_decide_eq_true in H. exact H.
Qed.

Lemma search_channels_result tid chs :
forall (c : config E),
  match fst (search_channels tid chs c) with
  | Done (Some w) => Some (webhook_id w) = tid
  | Done None => True
  | Raised x => x <> Forbidden
  end.
Proof.
induction chs as [|ch rest IH]; intros c; simpl; [exact I |].
unfold catch, bind, await.
destruct (channel_webhooks ch (env c)) as [[hooks|x] e1]; simpl.
- destruct (find_hook tid hooks) as [w|] eqn:Hfind; simpl.
  + apply (find_hook_id _ _ _ Hfind).
  + specialize (IH (issued c (Webhooks ch) e1)).
    destruct (search_channels tid rest (issued c (Webhooks ch) e1))
      as [[[w|]|x] c2]; simpl in *; try exact IH.
    destruct x; simpl; try discriminate. contradiction.
- destruct x; simpl; try discriminate. apply IH.
Qed.

(** X18: in the fallback search a channel whose webhooks may not be listed
    ([Forbidden]) is skipped and the search goes on with the next channel;
    any other exception ends the search and is passed on; a channel that
    holds the webhook ends the search with it; and the search as a whole
    never raises [Forbidden]. *)
Theorem fallback_search_skips_forbidden_channels tid ch rest (c : config E) :
let r := channel_webhooks ch (env c) in
let c1 := issued c (Webhooks ch) (snd r) in
match fst r with
| Raised Forbidden => search_channels tid (ch :: rest) c = search_channels tid rest c1
| Raised x => search_channels tid (ch :: rest) c = (Raised x, c1)
| Done hooks =>
    match find_hook tid hooks with
    | Some w => search_channels tid (ch :: rest) c = (Done (Some w), c1)
    | None => search_channels tid (ch :: rest) c = search_channels tid rest c1
    end
end
/\ fst (search_channels tid (ch :: rest) c) <> Raised Forbidden.
Proof.
cbv zeta. split.
- simpl. unfold catch, bind, await.
  destruct (channel_webhooks ch (env c)) as [[hooks|x] e1]; simpl.
  + destruct (find_hook tid hooks) as [w|]; [reflexivity |].
    pose proof (search_channels_result tid rest (issued c (Webhooks ch) e1)) as H.
    destruct (search_channels tid rest (issued c (Webhooks ch) e1))
      as [[a|x] c2]; simpl in *; [reflexivity |].
    destruct x; try reflexivity. contradiction.
  + destruct x; reflexivity.
- pose proof (search_channels_result tid (ch :: rest) c) as H.
  destruct (fst (search_channels tid (ch :: rest) c)) as [[w|]|x];
    try discriminate. congruence.
Qed.

Lemma search_channels_lists tid chs (c : config E) :
exists listings,
  trace (snd (search_channels tid chs c)) = trace c ++ listings
  /\ Forall (fun ev => exists ch, snd ev = Webhooks ch) listings.
Proof.
revert c. induction chs as [|ch rest IH]; intros c; simpl.
- exists []. rewrite app_nil_r. auto.
- unfold catch, bind, await.
  destruct (channel_webhooks ch (env c)) as [[hooks|x] e1]; simpl.
  + destruct (find_hook tid hooks) as [w|]; simpl.
    * exists [(env c, Webhooks ch)]. split; [reflexivity |].
      constructor; [simpl; eauto | constructor].
    * destruct (IH (issued c (Webhooks ch) e1)) as (ls & Htr & Hls).
      pose proof (search_channels_result tid rest (issued c (Webhooks ch) e1)) as H.
      destruct (search_channels tid rest (issued c (Webhooks ch) e1))
        as [[a|x] c2]; simpl in *.
      -- exists ((env c, Webhooks ch) :: ls). rewrite Htr, <- app_assoc.
         split; [reflexivity |]. constructor; [simpl; eauto | exact Hls].
      -- destruct x; try contradiction; simpl;
           (exists ((env c, Webhooks ch) :: ls); rewrite Htr, <- app_assoc;
            split; [reflexivity |]; constructor; [simpl; eauto | exact Hls]).
  + destruct x; simpl;
      try (exists [(env c, Webhooks ch)]; split; [reflexivity |];
           constructor; [simpl; eauto | constructor]).
    destruct (IH (issued c (Webhooks ch) e1)) as (ls & Htr & Hls).
    exists ((env c, Webhooks ch) :: ls). rewrite Htr. simpl. rewrite <- app_assoc.
    split; [reflexivity |]. constructor; [simpl; eauto | exact Hls].
Qed.

(** X19: [delete_webhook] lists the webhooks of the triggering channel
    first, possibly those of further channels, and then deletes at most one
    webhook: one whose id is the id of the target of the audit record.  When
    the target has no id nothing is deleted. *)
Theorem delete_webhook_deletes_only_the_target channel target_webhook (c : config E) :
exists listings deletions,
  trace (snd (delete_webhook channel target_webhook c))
  = trace c ++ (env c, Webhooks channel) :: listings ++ deletions
  /\ Forall (fun ev => exists ch, snd ev = Webhooks ch) listings
  /\ (deletions = []
      \/ exists e w,
          deletions = [(e, WebhookDelete w "Webhook von nicht-whitelistetem Nutzer")]
          /\ Some (webhook_id w) = target_id target_webhook).
Proof.
unfold delete_webhook. cbv zeta. unfold catch, bind at 1, await at 1.
destruct (channel_webhooks channel (env c)) as [[hooks|x] e1]; simpl.
2:{ exists [], []. destruct x; simpl; auto. }
destruct (find_hook (target_id target_webhook) hooks) as [w|] eqn:Hfind.
- exists [], [(e1, WebhookDelete w "Webhook von nicht-whitelistetem Nutzer")].
  unfold bind, ret, await. simpl.
  destruct (webhook_delete w _ e1) as [[[]|x] e2]; simpl.
  + rewrite <- app_assoc. split; [reflexivity |]. split; [constructor |].
    right. exists e1, w.
    split; [reflexivity | apply (find_hook_id _ _ _ Hfind)].
  + destruct x; simpl; rewrite <- app_assoc;
      (split; [reflexivity |]; split; [constructor |]; right;
       exists e1, w; split; [reflexivity | apply (find_hook_id _ _ _ Hfind)]).
- unfold bind, ask. cbn [fst snd env issued].
  set (c1 := issued c (Webhooks channel) e1).
  set (chs := text_channels e1 (channel_guild channel)).
  destruct (search_channels_lists (target_id target_webhook) chs c1) as (ls & Htr & Hls).
  pose proof (search_channels_result (target_id target_webhook) chs c1) as Hres.
  destruct (search_channels (target_id target_webhook) chs c1) as [[[w|]|x] c2];
    cbn [fst snd] in *.
  + exists ls, [(env c2, WebhookDelete w "Webhook von nicht-whitelistetem Nutzer")].
    unfold await.
    destruct (webhook_delete w _ (env c2)) as [[[]|x] e2]; simpl.
    * rewrite Htr. simpl. rewrite <- !app_assoc. simpl.
      split; [reflexivity |]. split; [exact Hls |]. right. eauto.
    * destruct x; simpl; rewrite Htr; simpl; rewrite <- !app_assoc; simpl;
        (split; [reflexivity |]; split; [exact Hls |]; right; eauto).
  + exists ls, []. simpl. rewrite Htr. simpl. rewrite app_nil_r, <- app_assoc.
    simpl. auto.
  + exists ls, [].
    destruct x; simpl; rewrite Htr; simpl; rewrite app_nil_r, <- app_assoc;
      simpl; auto.
Qed.

End Deletion.

(** ** Pages without a violation *)

Section QuietPages.
Context {E : Type} {P : Platform E}.

Lemma webhook_entry_passed_over channel entry (c : config E) :
passed_over (utcnow (env c)) entry -> webhook_entry channel entry c = (Done tt, c).
Proof.
intros H. unfold webhook_entry, bind, ask, ret. simpl.
destruct (too_old (utcnow (env c)) 30 entry) eqn:Hold; [reflexivity |].
destruct H as [H | [H | [H | (a & Ha & Htrust)]]].
- congruence.
- rewrite H. reflexivity.
- rewrite H. destruct (entry_user entry); reflexivity.
- rewrite Ha. destruct (entry_target entry); [| reflexivity].
  rewrite Htrust. reflexivity.
Qed.

Lemma for_each_passed_over channel entries (c : config E) :
Forall (passed_over (utcnow (env c))) entries ->
for_each entries (webhook_entry channel) c = (Done tt, c).
Proof.
induction 1 as [|entry entries Hentry _ IH]; simpl; [reflexivity |].
unfold bind. rewrite (webhook_entry_passed_over _ _ _ Hentry). exact IH.
Qed.

(** X20: when every record of the page of [on_webhooks_update] is older than
    30 seconds, lacks a user or a target, or was made by a whitelisted
    account, the handler stops after its audit query: no webhook is listed or
    deleted, nothing is counted and nobody is kicked. *)
Theorem page_without_violation_changes_nothing channel (c : config E) entries e1 :
let c0 := issued c (Sleep 1) (sleep 1 (env c)) in
let query := AuditLogs (channel_guild channel) 6 AuditLogAction.webhook_create in
audit_logs (channel_guild channel) 6 AuditLogAction.webhook_create (env c0)
= (Done entries, e1) ->
Forall (passed_over (utcnow e1)) (take 6 entries) ->
on_webhooks_update channel c = (Done tt, issued c0 query e1).
Proof.
intros c0 query Hlogs Hpage. subst c0 query.
unfold on_webhooks_update, fetch_audit_logs. cbv zeta.
unfold bind at 1. rewrite asyncio_sleep_run.
unfold catch, bind, await, ret. cbn [env issued] in *. rewrite Hlogs.
rewrite for_each_passed_over; [reflexivity | exact Hpage].
Qed.

End QuietPages.

Lemma page_without_violation_changes_nothing_witness :
Sim.calls (snd (on_webhooks_update (P := Sim.platform Sim.no_faults) Sim.general
                  (Sim.start Scenes.webhook_by_admin)))
= [Sleep 1; AuditLogs Sim.the_guild 6 AuditLogAction.webhook_create].
Proof.
rewrite (page_without_violation_changes_nothing (P := Sim.platform Sim.no_faults)
           Sim.general (Sim.start Scenes.webhook_by_admin)
           [Sim.record_at 0 Sim.admin_user 55]
           (Sim.advance (1 * second) Scenes.webhook_by_admin) eq_refl).
- reflexivity.
- constructor; [| constructor].
  right. right. right. exists Sim.admin_user. split; vm_compute; reflexivity.
Defined.

(** ** Repeated triggers and the first call of the message handler *)

Section Triggers.
Context {E : Type} {P : Platform E}.

Lemma purge_all_in_span now dq :
Forall (fun t => in_span now t = true) dq -> purge now dq = dq.
Proof.
intros H. destruct H as [|t dq Ht _]; simpl; [reflexivity |].
unfold in_span in Ht. apply negb_true_iff in Ht. rewrite Ht. reflexivity.
Qed.

Lemma deque_append_in_span now dq :
Forall (fun t => in_span now t = true) dq ->
Forall (fun t => in_span now t = true) (deque_append dq now)
/\ (Nat.min (S (length dq)) DEQUE_MAXLEN <= length (deque_append dq now))%nat.
Proof.
intros H. unfold deque_append.
assert (Hnow : Forall (fun t => in_span now t = true) [now]).
{ constructor; [apply in_span_now | constructor]. }
destruct (DEQUE_MAXLEN <=? length dq)%nat eqn:Hfull.
- apply Nat.leb_le in Hfull. destruct dq as [|t dq]; cbn [length tl] in *.
  + unfold DEQUE_MAXLEN in Hfull. lia.
  + split; [apply Forall_app; split; [eapply Forall_inv_tail; exact H | exact Hnow] |].
    rewrite length_app. cbn [length]. lia.
- apply Nat.leb_gt in Hfull. split; [apply Forall_app; auto |].
  rewrite length_app. cbn [length]. lia.
Qed.

(** X21: the enforcement has no cool-down.  A post of an untrusted account
    that finds at least 4 entries in its window, all of the 15-second span of
    the post, runs the enforcement, and leaves a window of at least 5 entries
    of that span: the window is not cleared, so the next post inside the span
    runs the enforcement again. *)
Theorem enforcement_has_no_cool_down author guild (run : Message * config E) :
is_whitelisted author = false ->
invite_post author guild run ->
(4 <= length (window author (snd run)))%nat ->
Forall (fun t => in_span (post_time run) t = true) (window author (snd run)) ->
let after := snd (on_message (fst run) (snd run)) in
on_message (fst run) (snd run)
= invite_spam_enforcement (fst run) guild (posted (fst run) (snd run))
/\ (5 <= length (window author after))%nat
/\ Forall (fun t => in_span (post_time run) t = true) (window author after).
Proof.
intros Huntrusted Hpost Hlen Hspan after. subst after.
rewrite (window_after_post author guild run Huntrusted Hpost).
destruct (deque_append_in_span (post_time run) (window author (snd run)) Hspan)
  as [Hall Hmin].
assert (Hrec : record_post (window author (snd run)) (post_time run)
               = deque_append (window author (snd run)) (post_time run)).
{ unfold record_post. apply purge_all_in_span, Hall. }
assert (Hfive : (5 <= length (record_post (window author (snd run)) (post_time run)))%nat).
{ rewrite Hrec. unfold DEQUE_MAXLEN in Hmin. lia. }
split; [| split; [exact Hfive | rewrite Hrec; exact Hall]].
destruct Hpost as (Hid & Hbot & Hguild & Hre & Habs).
destruct run as [message c]. cbn [fst snd] in *.
rewrite (on_message_run _ _ _ Hbot Hguild Hre). cbv zeta.
rewrite Hid, Huntrusted.
unfold window, post_time in Hfive. cbn [fst snd] in Hfive.
assert (Hover : is_over_threshold
                  (record_post (default [] (invite_events (bot c) !! author))
                               (utcnow (snd (message_delete message (env c))))) = true).
{ unfold is_over_threshold, INVITE_MAX_IN_WINDOW. apply Nat.leb_le. exact Hfive. }
rewrite Hover.
destruct (fst (message_delete message (env c))) as [[]|[]];
  try reflexivity. contradiction || discriminate.
Qed.

(** X22: [on_message] acts exactly on the messages of non-bot authors in a
    guild whose text has a match of [INVITE_REGEX]: for those its first call
    is the deletion of the message, issued in the state the handler started
    in, whoever the author is; for all other messages it returns at once and
    leaves everything as it is. *)
Theorem deletion_comes_first_or_nothing_happens message (c : config E) :
if negb (user_bot (message_author message))
   && bool_decide (is_Some (message_guild message))
   && Regex.search INVITE_REGEX (message_content message)
then exists rest,
    trace (snd (on_message message c)) = trace c ++ (env c, Delete message) :: rest
else on_message message c = (Done tt, c).
Proof.
destruct (user_bot (message_author message)) eqn:Hbot; cbn [negb andb].
{ apply on_message_of_bot, Hbot. }
destruct (message_guild message) as [guild|] eqn:Hguild.
2:{ rewrite bool_decide_eq_false_2 by (intros [? ?]; discriminate).
    apply on_message_outside_guild, Hguild. }
rewrite bool_decide_eq_true_2 by eauto. cbn [andb].
destruct (Regex.search INVITE_REGEX (message_content message)) eqn:Hre.
2:{ apply on_message_no_invite, Hre. }
rewrite (on_message_run _ _ _ Hbot Hguild Hre). cbv zeta.
assert (Hrest : exists rest,
           trace (snd (if is_whitelisted (user_id (message_author message))
                       then (Done tt, issued c (Delete message)
                                        (snd (message_delete message (env c))))
                       else if is_over_threshold
                                 (record_post
                                    (default [] (invite_events (bot c)
                                                   !! user_id (message_author message)))
                                    (utcnow (snd (message_delete message (env c)))))
                            then invite_spam_enforcement message guild (posted message c)
                            else (Done tt, posted message c)))
           = trace c ++ (env c, Delete message) :: rest).
{ destruct (is_whitelisted _); [exists []; reflexivity |].
  destruct (is_over_threshold _); [| exists []; reflexivity].
  destruct (invite_spam_enforcement_bot message guild (posted message c))
    as [_ [evs ->]].
  exists evs. simpl. rewrite <- app_assoc. reflexivity. }
destruct (fst (message_delete message (env c))) as [[]|[]];
  try exact Hrest. exists []. reflexivity.
Qed.

End Triggers.

Lemma enforcement_has_no_cool_down_witness :
(5 <= length (window 100 (snd (on_message (P := Sim.platform Sim.no_faults)
                                 (fst Sim.burst_last) (snd Sim.burst_last)))))%nat.
Proof.
refine (proj1 (proj2 (enforcement_has_no_cool_down (P := Sim.platform Sim.no_faults)
                        100 Sim.the_guild Sim.burst_last _ _ _ _))).
- vm_compute. reflexivity.
- repeat split; vm_compute; reflexivity.
- vm_compute. lia.
- apply Forall_forall. intros t Ht. apply list_elem_of_In in Ht. revert t Ht.
  apply forallb_forall. vm_compute. reflexivity.
Defined.

(** ** Records seen again, and kicks that break *)

Section Recount.
Context {E : Type} {P : Platform E}.

Lemma webhook_entry_counts channel entry actor target (c : config E) :
(forall ch e, absorbed (fst (channel_webhooks ch e))) ->
(forall w reason e, absorbed (fst (webhook_delete w reason e))) ->
too_old (utcnow (env c)) 30 entry = false ->
entry_user entry = Some actor ->
entry_target entry = Some target ->
is_whitelisted (user_id actor) = false ->
webhook_entry channel entry c
= count_attempt (channel_guild channel) actor (snd (delete_webhook channel target c))
/\ attempts actor (snd (delete_webhook channel target c)) = attempts actor c.
Proof.
intros Hhooks Hdel Hfresh Huser Htarget Huntrusted.
destruct (delete_webhook_done Hhooks Hdel channel target c) as [Hdone Hbot].
split.
- unfold webhook_entry, bind, ask. simpl.
  rewrite Hfresh, Huser, Htarget, Huntrusted.
  destruct (delete_webhook channel target c) as [r d]. simpl in *.
  rewrite Hdone. reflexivity.
- unfold attempts. rewrite Hbot. reflexivity.
Qed.

Lemma single_record_event channel entry actor target (c : config E) entries e1 :
http_only ->
audit_logs (channel_guild channel) 6 AuditLogAction.webhook_create (sleep 1 (env c))
= (Done entries, e1) ->
take 6 entries = [entry] ->
too_old (utcnow e1) 30 entry = false ->
entry_user entry = Some actor ->
entry_target entry = Some target ->
is_whitelisted (user_id actor) = false ->
attempts actor (snd (on_webhooks_update channel c))
= if WEBHOOK_MAX_ATTEMPTS <=? attempts actor c + 1 then 0 else attempts actor c + 1.
Proof.
intros Hhttp Hlogs Hpage Hfresh Huser Htarget Huntrusted.
destruct Hhttp as (_ & _ & Hkick & _ & Hhooks & Hdel).
unfold on_webhooks_update, fetch_audit_logs. cbv zeta.
unfold bind at 1. rewrite asyncio_sleep_run.
unfold catch, bind at 1, bind at 1, await, ret. cbn [env issued] in *.
rewrite Hlogs, Hpage. cbn [for_each]. unfold bind at 1.
set (c1 := issued (issued c (Sleep 1) (sleep 1 (env c)))
                  (AuditLogs (channel_guild channel) 6 AuditLogAction.webhook_create) e1).
destruct (webhook_entry_counts channel entry actor target c1 Hhooks Hdel)
  as (Hrun & Hatt); auto.
rewrite Hrun.
pose proof (count_attempt_next (channel_guild channel) actor
              (snd (delete_webhook channel target c1)) Hkick) as Hnext.
rewrite Hatt in Hnext. change (attempts actor c1) with (attempts actor c) in Hnext.
destruct (count_attempt (channel_guild channel) actor
            (snd (delete_webhook channel target c1))) as [[[]|x] c2];
  cbn [fst snd] in *; [exact Hnext |].
destruct x; exact Hnext.
Qed.

(** X23: [on_webhooks_update] keeps no memory of the records it has handled.
    An event whose page shows one fresh record of an untrusted actor counts
    it, and a later event whose page still shows that record counts it
    again: after the two events the count has moved two steps, although one
    webhook was created.  (Platform failures inside [HTTPException].) *)
Theorem record_seen_twice_counts_twice
        channel entry actor target (c c' : config E) entries e1 entries' e1' :
http_only ->
audit_logs (channel_guild channel) 6 AuditLogAction.webhook_create (sleep 1 (env c))
= (Done entries, e1) ->
audit_logs (channel_guild channel) 6 AuditLogAction.webhook_create (sleep 1 (env c'))
= (Done entries', e1') ->
take 6 entries = [entry] ->
take 6 entries' = [entry] ->
too_old (utcnow e1) 30 entry = false ->
too_old (utcnow e1') 30 entry = false ->
entry_user entry = Some actor ->
entry_target entry = Some target ->
is_whitelisted (user_id actor) = false ->
attempts actor c = 0 ->
attempts actor c' = attempts actor (snd (on_webhooks_update channel c)) ->
attempts actor (snd (on_webhooks_update channel c)) = 1
/\ attempts actor (snd (on_webhooks_update channel c')) = 2.
Proof.
intros Hhttp Hlogs Hlogs' Hpage Hpage' Hfresh Hfresh' Huser Htarget Hu Hzero Hnext.
pose proof (single_record_event channel entry actor target c entries e1
              Hhttp Hlogs Hpage Hfresh Huser Htarget Hu) as H1.
rewrite Hzero in H1. simpl in H1.
pose proof (single_record_event channel entry actor target c' entries' e1'
              Hhttp Hlogs' Hpage' Hfresh' Huser Htarget Hu) as H2.
rewrite Hnext, H1 in H2. simpl in H2. auto.
Qed.

(** X24: the reset of the counter comes after the kick, so a kick that
    raises an exception outside [HTTPException] skips it: the exception is
    passed on and the count stays at the threshold. *)
Theorem broken_kick_skips_the_reset guild actor m (c : config E) e' :
(WEBHOOK_MAX_ATTEMPTS <=? attempts actor c + 1) = true ->
get_member (env c) guild (user_id actor) = Some m ->
is_Some (get_member (env c) guild (member_id m)) ->
guild_kick guild m webhook_kick_reason (env c) = (Raised OtherError, e') ->
fst (count_attempt guild actor c) = Raised OtherError
/\ attempts actor (snd (count_attempt guild actor c)) = attempts actor c + 1.
Proof.
intros Hhigh Hm [m' Hm'] Hkick.
unfold count_attempt, bind, modify, gets, ask, ret. simpl.
rewrite lookup_insert_eq. simpl. fold (attempts actor c). rewrite Hhigh. simpl.
rewrite Hm. rewrite safe_kick_run. simpl. rewrite Hm'. simpl.
unfold webhook_kick_reason in Hkick. rewrite Hkick. simpl.
split; [reflexivity |]. unfold attempts. simpl. rewrite lookup_insert_eq. reflexivity.
Qed.

End Recount.

Lemma record_seen_twice_counts_twice_witness :
let update c := snd (on_webhooks_update (P := Sim.platform Sim.no_faults)
                       Sim.general c) in
attempts Sim.bob_user (update (update (Sim.start Scenes.webhook_by_bob))) = 2.
Proof.
intros update.
refine (proj2 (record_seen_twice_counts_twice (P := Sim.platform Sim.no_faults)
                 Sim.general (Sim.record_at 0 Sim.bob_user 55) Sim.bob_user
                 {| target_id := Some 55 |}
                 (Sim.start Scenes.webhook_by_bob)
                 (update (Sim.start Scenes.webhook_by_bob))
                 [Sim.record_at 0 Sim.bob_user 55]
                 (Sim.advance (1 * second) Scenes.webhook_by_bob)
                 [Sim.record_at 0 Sim.bob_user 55]
                 (Sim.advance (1 * second)
                    (env (update (Sim.start Scenes.webhook_by_bob))))
                 _ _ _ _ _ _ _ _ _ _ _ _)).
- repeat split; intros; exact I.
- reflexivity.
- reflexivity.
- reflexivity.
- reflexivity.
- vm_compute. reflexivity.
- vm_compute. reflexivity.
- reflexivity.
- reflexivity.
- vm_compute. reflexivity.
- vm_compute. reflexivity.
- reflexivity.
Defined.

Lemma broken_kick_skips_the_reset_witness :
let c2 := Sim.violate (Sim.violate (Sim.start Sim.world0)) in
fst (count_attempt (P := Sim.platform Scenes.kick_breaks) Sim.the_guild
       Sim.alice_user c2) = Raised OtherError
/\ attempts Sim.alice_user
      (snd (count_attempt (P := Sim.platform Scenes.kick_breaks) Sim.the_guild
              Sim.alice_user c2)) = 2 + 1.
Proof.
intros c2.
apply (broken_kick_skips_the_reset (P := Sim.platform Scenes.kick_breaks)
         Sim.the_guild Sim.alice_user Sim.alice c2 (env c2)).
- vm_compute. reflexivity.
- reflexivity.
- exists Sim.alice. reflexivity.
- reflexivity.
Defined.
